(** * steampipe-plugin-aws: the shared-AMI table and the Resource Explorer
      supported-resource-type table

    A shallow embedding of
      - [aws/table_aws_ec2_ami_shared.go]: [listAmisByOwner],
        [getImageOwnerAlias], [buildAmisWithOwnerFilter];
      - the Resource Explorer table: [listAWSExplorerSupportedTypes].

    Hydrate functions run against a query context.  The context is modelled
    as an explicit [World] that records, in order, every call the code makes
    to its collaborators (provider API, identity resolution, row streaming,
    the rows-remaining check), together with the per-query identity cache. *)

From Stdlib Require Import String Ascii List ZArith Lia Bool Permutation.
From stdpp Require Import base decidable option list gmap strings pretty.
Import ListNotations.

Local Open Scope string_scope.
Local Open Scope list_scope.
Local Open Scope nat_scope.
Local Open Scope stdpp_scope.

(** ** Go values *)

(** A Go [error]; only its identity matters here. *)
Definition error := string.

(** The dynamic values ([interface{}]) the translator inspects. *)
Inductive GoValue : Type :=
| VNil
| VString (s : string)
| VBool (b : bool)
| VInt64 (z : Z)
| VStringSlice (l : list string).

(** [fmt.Sprint] on one operand (the [%v] verb): a slice prints as its
    elements between brackets, separated by spaces. *)
Definition fmt_Sprint (v : GoValue) : string :=
  match v with
  | VNil => "<nil>"
  | VString s => s
  | VBool true => "true"
  | VBool false => "false"
  | VInt64 z => pretty z
  | VStringSlice l => "[" +:+ String.concat " " l +:+ "]"
  end.

(** [strings.Contains s substr]. *)
Fixpoint strings_Contains (s substr : string) : bool :=
  if String.prefix substr s then true
  else match s with
       | EmptyString => false
       | String _ s' => strings_Contains s' substr
       end.

(** A function that either returns or panics. *)
Inductive GoResult (A : Type) : Type :=
| Returns (a : A)
| Panics.
Arguments Returns {A} a.
Arguments Panics {A}.

(** ** SDK data: [proto], [plugin], [types] *)

Module proto.

(** [proto.QualValue]: the literal of a predicate (a oneof). *)
#[local] Set Warnings "-register-all".
Inductive QualValue : Type :=
| StringValue (s : string)
| Int64Value (z : Z)
| BoolValue (b : bool)
| ListValue (vs : list QualValue).

(** Getter on a possibly nil [*QualValue]: the zero value unless the
    oneof holds a string. *)
Definition GetStringValue (q : option QualValue) : string :=
  match q with
  | Some (StringValue s) => s
  | _ => ""
  end.

End proto.

Module types.

(** [types.Filter] of the EC2 API. *)
Record Filter : Type := { Name : option string; Values : list string }.

(** [types.Image], restricted to the fields the code reads. *)
Record Image : Type :=
  { ImageId : option string;
    OwnerId : option string;
    ImageOwnerAlias : option string }.

(** [types.SupportedResourceType] of Resource Explorer. *)
Record SupportedResourceType : Type :=
  { ResourceType : option string; Service : option string }.

End types.

Module plugin.

(** [quals.Qual]: one comparison of a column with a literal. *)
Record Qual : Type :=
  { Column : string; Operator : string; Value : option proto.QualValue }.

(** [plugin.KeyColumnQuals]: every comparison on one column. *)
Record KeyColumnQuals : Type := { Name : string; Quals : list Qual }.

(** [plugin.QueryData], restricted to what the hydrate functions read.
    [RowsRemaining n] is the host's answer to [QueryStatus.RowsRemaining]
    once [n] rows have been streamed. *)
Record QueryData : Type :=
  { d_KeyColumnQuals : gmap string proto.QualValue;
    d_Quals : gmap string KeyColumnQuals;
    RowsRemaining : nat -> Z }.

End plugin.

(** [plugin.KeyColumnQualMap]: the predicate map. *)
Abbreviation KeyColumnQualMap := (gmap string plugin.KeyColumnQuals).

(** [awsCommonColumnData]: the resolved identity of the caller. *)
Record awsCommonColumnData : Type :=
  { Partition : string; Region : string; AccountId : string }.

(** ** Provider API shapes *)

Module ec2.

Record DescribeImagesInput : Type :=
  { Owners : list string; Filters : list types.Filter }.

Record DescribeImagesOutput : Type :=
  { Images : list types.Image; NextToken : option string }.

(** The client, seen through its one operation. *)
Definition Client : Type := DescribeImagesInput -> error + DescribeImagesOutput.

End ec2.

Module resourceexplorer2.

Record ListSupportedResourceTypesInput : Type :=
  { MaxResults : option Z; NextToken : option string }.

Record ListSupportedResourceTypesOutput : Type :=
  { NextToken_out : option string;
    ResourceTypes : list types.SupportedResourceType }.

Definition Client : Type :=
  ListSupportedResourceTypesInput -> error + ListSupportedResourceTypesOutput.

(** [ListSupportedResourceTypesPaginator]: options fixed by the caller and
    the cursor. *)
Record Paginator : Type :=
  { client : Client;
    Limit : Z;
    StopOnDuplicateToken : bool;
    firstPage : bool;
    nextToken : option string }.

Definition NewListSupportedResourceTypesPaginator
    (svc : Client) (limit : Z) (stopOnDup : bool) : Paginator :=
  {| client := svc; Limit := limit; StopOnDuplicateToken := stopOnDup;
     firstPage := true; nextToken := None |}.

(** [HasMorePages]: first page, or a non-empty continuation token. *)
Definition HasMorePages (p : Paginator) : bool :=
  firstPage p ||
  match nextToken p with
  | Some t => negb (String.eqb t "")
  | None => false
  end.

(** The request [NextPage] sends. *)
Definition request (p : Paginator) : ListSupportedResourceTypesInput :=
  {| MaxResults := if (0 <? Limit p)%Z then Some (Limit p) else None;
     NextToken := nextToken p |}.

(** [NextPage]: on error the cursor is left as it was; on success the
    cursor advances, and is cleared when the provider repeats the token. *)
Definition NextPage (p : Paginator)
  : (error + ListSupportedResourceTypesOutput) * Paginator :=
  match client p (request p) with
  | inl err => (inl err, p)
  | inr result =>
      let prevToken := nextToken p in
      let next :=
        match prevToken, NextToken_out result with
        | Some a, Some b =>
            if StopOnDuplicateToken p && String.eqb a b then None else Some b
        | _, n => n
        end in
      (inr result,
       {| client := client p; Limit := Limit p;
          StopOnDuplicateToken := StopOnDuplicateToken p;
          firstPage := false; nextToken := next |})
  end.

End resourceexplorer2.

(** ** The query context as a world *)

(** What [StreamListItem] receives. *)
Inductive Item : Type :=
| ItImage (image : types.Image)
| ItResourceType (rt : types.SupportedResourceType).

(** The calls a hydrate function makes to its collaborators. *)
Inductive Event : Type :=
| EvDescribeImages (input : ec2.DescribeImagesInput)
| EvListSupportedResourceTypes (input : resourceexplorer2.ListSupportedResourceTypesInput)
| EvGetCommonColumns
| EvStreamListItem (item : Item)
| EvRowsRemaining.

Record World : Type :=
  { trace : list Event;
    commonColumnsCache : option awsCommonColumnData }.

Definition log (e : Event) (w : World) : World :=
  {| trace := trace w ++ [e]; commonColumnsCache := commonColumnsCache w |}.

Definition logs (es : list Event) (w : World) : World :=
  {| trace := trace w ++ es; commonColumnsCache := commonColumnsCache w |}.

(** The rows streamed so far, oldest first. *)
Fixpoint rows (t : list Event) : list Item :=
  match t with
  | [] => []
  | EvStreamListItem x :: t' => x :: rows t'
  | _ :: t' => rows t'
  end.

(** The provider calls made so far. *)
Fixpoint fetches (t : list Event) : nat :=
  match t with
  | [] => 0
  | EvDescribeImages _ :: t' => S (fetches t')
  | EvListSupportedResourceTypes _ :: t' => S (fetches t')
  | _ :: t' => fetches t'
  end.

(** The identity-resolution calls made so far. *)
Fixpoint identityCalls (t : list Event) : nat :=
  match t with
  | [] => 0
  | EvGetCommonColumns :: t' => S (identityCalls t')
  | _ :: t' => identityCalls t'
  end.

(** How a list function left: each constructor is one [return] of the
    source (or the model running out of fuel, or a panic). *)
Inductive Exit : Type :=
| ConnectionError (err : error)
| UnsupportedRegion
| ApiError (err : error)
| StoppedEarly
| Done
| Panicked
| OutOfFuel.

(** The Go result [(interface{}, error)] of an exit. *)
Definition returned (x : Exit) : option (GoValue * option error) :=
  match x with
  | ConnectionError err | ApiError err => Some (VNil, Some err)
  | UnsupportedRegion | StoppedEarly | Done => Some (VNil, None)
  | Panicked | OutOfFuel => None
  end.

(** ** Owner resolution: [getCommonColumns] behind [WithCache] *)

Section Identity.

(** [getCommonColumns] is a hydrate function of the package that is not
    among the sources: the call that resolves the caller's identity, which
    may fail.  Its outcome is a parameter of the query context. *)
Variable getCommonColumns : error + awsCommonColumnData.

(** [plugin.HydrateFunc(getCommonColumns).WithCache()].  The wrapper is
    the SDK's: a cached value is returned without a call; otherwise the
    call is made and a successful result is stored for the rest of the
    query. *)
Definition getCommonColumnsCached (w : World)
  : (error + awsCommonColumnData) * World :=
  match commonColumnsCache w with
  | Some c => (inr c, w)
  | None =>
      match getCommonColumns with
      | inl err => (inl err, log EvGetCommonColumns w)
      | inr c =>
          (inr c,
           {| trace := trace w ++ [EvGetCommonColumns];
              commonColumnsCache := Some c |})
      end
  end.

(** *** [getImageOwnerAlias] *)

(** The dereference [*image.OwnerId] panics on a nil pointer; it is
    evaluated only when the alias is nil. *)
Definition getImageOwnerAlias (image : types.Image) (w : World)
  : GoResult (GoValue * option error) * World :=
  let '(c, w') := getCommonColumnsCached w in
  match c with
  | inl err => (Returns (VNil, Some err), w')
  | inr commonColumnData =>
      match types.ImageOwnerAlias image with
      | None =>
          match types.OwnerId image with
          | None => (Panics, w')
          | Some ownerId =>
              if negb (String.eqb (AccountId commonColumnData) ownerId)
              then (Returns (VString ownerId, None), w')
              else (Returns (VString "self", None), w')
          end
      | Some alias => (Returns (VString alias, None), w')
      end
  end.

(** *** [buildAmisWithOwnerFilter] *)

(** The literal of [filterQuals], in the order it is written. *)
Definition filterQuals : list (string * string) :=
  [ ("architecture", "architecture");
    ("description", "description");
    ("ena_support", "ena-support");
    ("hypervisor", "hypervisor");
    ("image_id ", "image-id ");
    ("image_type", "image-type");
    ("kernel_id", "kernel-id");
    ("name", "name");
    ("platform", "platform");
    ("public", "is-public");
    ("ramdisk_id", "ramdisk-id");
    ("root_device_name", "root-device-name");
    ("root_device_type", "root-device-type");
    ("state", "state");
    ("sriov_net_support", "sriov-net-support");
    ("virtualization_type", "virtualization-type") ].

Definition columnsBool : list string := ["ena_support"; "public"].

(** [getQualsValueByColumn] is a helper of the package that is not among
    the sources; the translator is stated for any such helper. *)
Variable getQualsValueByColumn : KeyColumnQualMap -> string -> string -> GoValue.

(** The body of the [range] loop for a column that is present. *)
Definition columnFilter (quals : KeyColumnQualMap) (columnName filterName : string)
  : types.Filter :=
  if strings_Contains (fmt_Sprint (VStringSlice columnsBool)) columnName then
    let value := getQualsValueByColumn quals columnName "boolean" in
    {| types.Name := Some filterName; types.Values := [fmt_Sprint value] |}
  else
    let value := getQualsValueByColumn quals columnName "string" in
    match value with
    | VString val => {| types.Name := Some filterName; types.Values := [val] |}
    | _ => {| types.Name := Some filterName; types.Values := [] |}
    end.

(** [for columnName, filterName := range filterQuals].  Go visits the
    entries of a map once each, in an order it does not specify;
    [iteration] is the order of this run. *)
Fixpoint rangeFilterQuals (iteration : list (string * string))
    (quals : KeyColumnQualMap) (filters : list types.Filter) : list types.Filter :=
  match iteration with
  | [] => filters
  | (columnName, filterName) :: rest =>
      match quals !! columnName with
      | Some _ =>
          rangeFilterQuals rest quals (filters ++ [columnFilter quals columnName filterName])
      | None => rangeFilterQuals rest quals filters
      end
  end.

Definition buildAmisWithOwnerFilter (iteration : list (string * string))
    (quals : KeyColumnQualMap) (amiType : string) (w : World)
  : GoResult (list types.Filter) * World :=
  let filters := rangeFilterQuals iteration quals [] in
  if negb (String.eqb amiType "SHARED_AMI") then
    match quals !! "owner_id" with
    | Some _ =>
        match getQualsValueByColumn quals "owner_id" "string" with
        | VString s =>
            (Returns (filters ++ [{| types.Name := Some "owner-id"; types.Values := [s] |}]), w)
        | _ => (Panics, w)
        end
    | None =>
        let '(c, w') := getCommonColumnsCached w in
        match c with
        | inl _ => (Returns filters, w')
        | inr commonColumnData =>
            (Returns (filters ++ [{| types.Name := Some "owner-id";
                                     types.Values := [AccountId commonColumnData] |}]), w')
        end
    end
  else (Returns filters, w).

End Identity.

(** ** The list functions *)

Definition StreamListItem (x : Item) (w : World) : World :=
  log (EvStreamListItem x) w.

(** [d.QueryStatus.RowsRemaining(ctx)]: asked of the host, which answers
    from the number of rows it has received. *)
Definition QueryStatus_RowsRemaining (d : plugin.QueryData) (w : World) : Z * World :=
  (plugin.RowsRemaining d (length (rows (trace w))), log EvRowsRemaining w).

(** The loop both list functions run over the items of one response:
    stream the item, then return if no more rows are wanted.  The boolean
    tells whether the loop returned from the function. *)
Fixpoint streamRange {A : Type} (item : A -> Item) (d : plugin.QueryData)
    (items : list A) (w : World) : bool * World :=
  match items with
  | [] => (false, w)
  | x :: rest =>
      let w1 := StreamListItem (item x) w in
      let '(remaining, w2) := QueryStatus_RowsRemaining d w1 in
      if (remaining =? 0)%Z then (true, w2) else streamRange item d rest w2
  end.

Section ListFunctions.

Variable getCommonColumns : error + awsCommonColumnData.
Variable getQualsValueByColumn : KeyColumnQualMap -> string -> string -> GoValue.

(** Session creation is an external collaborator: its outcome is given. *)
Variable EC2Client : error + ec2.Client.
(** A nil client with a nil error stands for an unsupported region. *)
Variable ResourceExplorerClient : error + option resourceexplorer2.Client.

(** The order in which this run of [buildAmisWithOwnerFilter] ranges over
    [filterQuals]. *)
Variable iteration : list (string * string).

(** *** [listAmisByOwner] *)

Definition listAmisByOwner (d : plugin.QueryData) (w : World) : Exit * World :=
  let owner_id := proto.GetStringValue (plugin.d_KeyColumnQuals d !! "owner_id") in
  match EC2Client with
  | inl err => (ConnectionError err, w)
  | inr svc =>
      let '(built, w1) :=
        buildAmisWithOwnerFilter getCommonColumns getQualsValueByColumn
          iteration (plugin.d_Quals d) "SHARED_AMI" w in
      match built with
      | Panics => (Panicked, w1)
      | Returns filters =>
          let input :=
            {| ec2.Owners := [owner_id];
               ec2.Filters := if negb (length filters =? 0) then filters else [] |} in
          let w2 := log (EvDescribeImages input) w1 in
          match svc input with
          | inl err => (ApiError err, w2)
          | inr resp =>
              let '(stopped, w3) := streamRange ItImage d (ec2.Images resp) w2 in
              if stopped then (StoppedEarly, w3) else (Done, w3)
          end
      end
  end.

(** *** [listAWSExplorerSupportedTypes] *)

(** [for paginator.HasMorePages() { ... }].  The loop ends when the
    provider stops handing out tokens, which the code cannot know in
    advance: [fuel] bounds the number of iterations of the model. *)
Fixpoint pagesLoop (fuel : nat) (d : plugin.QueryData)
    (paginator : resourceexplorer2.Paginator) (w : World) : Exit * World :=
  match fuel with
  | 0 => (OutOfFuel, w)
  | S fuel' =>
      if resourceexplorer2.HasMorePages paginator then
        let w1 := log (EvListSupportedResourceTypes (resourceexplorer2.request paginator)) w in
        let '(output, paginator') := resourceexplorer2.NextPage paginator in
        match output with
        | inl err => (ApiError err, w1)
        | inr output =>
            let '(stopped, w2) :=
              streamRange ItResourceType d (resourceexplorer2.ResourceTypes output) w1 in
            if stopped then (StoppedEarly, w2) else pagesLoop fuel' d paginator' w2
        end
      else (Done, w)
  end.

Definition listAWSExplorerSupportedTypes (fuel : nat) (d : plugin.QueryData) (w : World)
  : Exit * World :=
  match ResourceExplorerClient with
  | inl err => (ConnectionError err, w)
  | inr None => (UnsupportedRegion, w)
  | inr (Some svc) =>
      let paginator :=
        resourceexplorer2.NewListSupportedResourceTypesPaginator svc 100%Z true in
      pagesLoop fuel d paginator w
  end.

End ListFunctions.

(** ** Providers that answer with a given sequence of pages *)

(** The continuation token handed out for page [i]. *)
Fixpoint tokenOf (i : nat) : string :=
  match i with
  | 0 => ""
  | S j => String "p" (tokenOf j)
  end.

Definition cursor (i : nat) : option string :=
  match i with
  | 0 => None
  | S _ => Some (tokenOf i)
  end.

Definition pageIndex (t : option string) : nat :=
  match t with
  | None => 0
  | Some s => String.length s
  end.

(** A Resource Explorer endpoint that answers page by page from [pages]:
    the request's token selects the page, and the answer carries the token
    of the next page while there is one.  A page is either its items or
    the error the call fails with. *)
Definition servePages (pages : list (error + list types.SupportedResourceType))
  : resourceexplorer2.Client :=
  fun input =>
    let i := pageIndex (resourceexplorer2.NextToken input) in
    match pages !! i with
    | Some (inl err) => inl err
    | Some (inr items) =>
        inr {| resourceexplorer2.NextToken_out :=
                 if S i <? length pages then cursor (S i) else None;
               resourceexplorer2.ResourceTypes := items |}
    | None =>
        inr {| resourceexplorer2.NextToken_out := None;
               resourceexplorer2.ResourceTypes := [] |}
    end.

(** An EC2 endpoint holding its images in [pages].  The request of
    [DescribeImages] carries no token, so every call is answered with the
    first page and the token of the second. *)
Definition serveImages (pages : list (list types.Image)) : ec2.Client :=
  fun _ =>
    inr {| ec2.Images := hd [] pages;
           ec2.NextToken := if 1 <? length pages then cursor 1 else None |}.

(** The events of streaming [items] with no early return. *)
Definition emitted {A : Type} (item : A -> Item) (items : list A) : list Event :=
  flat_map (fun x => [EvStreamListItem (item x); EvRowsRemaining]) items.

(** The request the paginator sends for page [i]. *)
Definition pageRequest (i : nat) : resourceexplorer2.ListSupportedResourceTypesInput :=
  {| resourceexplorer2.MaxResults := Some 100%Z;
     resourceexplorer2.NextToken := cursor i |}.

(** The events of a paginated listing that walks all of [pages], starting
    at page [i]. *)
Fixpoint walked (i : nat) (pages : list (list types.SupportedResourceType)) : list Event :=
  match pages with
  | [] => []
  | p :: ps =>
      EvListSupportedResourceTypes (pageRequest i) :: emitted ItResourceType p ++ walked (S i) ps
  end.

(** The events of a paginated listing that returns after its [k]-th row
    ([1 <= k]), starting at page [i]. *)
Fixpoint walkedUntil (k i : nat) (pages : list (list types.SupportedResourceType))
  : list Event :=
  match pages with
  | [] => []
  | p :: ps =>
      EvListSupportedResourceTypes (pageRequest i) ::
      if k <=? length p then emitted ItResourceType (firstn k p)
      else emitted ItResourceType p ++ walkedUntil (k - length p) (S i) ps
  end.

(** The number of pages that hold the first [k] rows ([1 <= k]). *)
Fixpoint pagesHolding {A : Type} (k : nat) (pages : list (list A)) : nat :=
  match pages with
  | [] => 0
  | p :: ps => if k <=? length p then 1 else S (pagesHolding (k - length p) ps)
  end.

(** The request [listAmisByOwner] sends, given the order of the range. *)
Definition describeImagesInput
    (getQualsValueByColumn : KeyColumnQualMap -> string -> string -> GoValue)
    (iteration : list (string * string)) (d : plugin.QueryData) : ec2.DescribeImagesInput :=
  {| ec2.Owners := [proto.GetStringValue (plugin.d_KeyColumnQuals d !! "owner_id")];
     ec2.Filters := rangeFilterQuals getQualsValueByColumn iteration (plugin.d_Quals d) [] |}.

(** ** Reading the translator's output *)

(** The entries of the range whose column carries a predicate. *)
Definition present (quals : KeyColumnQualMap) (entries : list (string * string))
  : list (string * string) :=
  filter (fun ck => is_Some (quals !! ck.1)) entries.

(** The filters of the range, one per present entry, in range order. *)
Definition translated
    (getQualsValueByColumn : KeyColumnQualMap -> string -> string -> GoValue)
    (quals : KeyColumnQualMap) (entries : list (string * string)) : list types.Filter :=
  (fun ck => columnFilter getQualsValueByColumn quals ck.1 ck.2) <$> present quals entries.

(** The literal of a predicate as a dynamic value. *)
Definition literalValue (q : proto.QualValue) : GoValue :=
  match q with
  | proto.StringValue s => VString s
  | proto.Int64Value z => VInt64 z
  | proto.BoolValue b => VBool b
  | proto.ListValue vs => VStringSlice ((fun v => proto.GetStringValue (Some v)) <$> vs)
  end.

(** Modelled from the spec: [getQualsValueByColumn] is not among the
    sources.  The Qualifier Extractor gives, for a column present in the
    map, "the literal value coerced to its expected kind"; a literal that
    is not of the expected kind is handed back as it is, for the caller to
    format ("falling back to a formatted-string representation rather than
    failing the query").  The literal is that of the column's last
    comparison. *)
Definition qualsValueByColumn (quals : KeyColumnQualMap) (columnName dataType : string)
  : GoValue :=
  match quals !! columnName with
  | Some kq =>
      match last (plugin.Quals kq) with
      | Some q =>
          match plugin.Value q with
          | Some v => literalValue v
          | None => VNil
          end
      | None => VNil
      end
  | None => VNil
  end.

(** ** Sample data *)

Definition equals (column : string) (v : proto.QualValue) : plugin.KeyColumnQuals :=
  {| plugin.Name := column;
     plugin.Quals := [{| plugin.Column := column; plugin.Operator := "=";
                         plugin.Value := Some v |}] |}.

(** [architecture = 'x86_64' and name = 'al2023'] *)
Definition qualsArchName : KeyColumnQualMap :=
  {[ "architecture" := equals "architecture" (proto.StringValue "x86_64");
     "name" := equals "name" (proto.StringValue "al2023") ]}.


(** [owner_id = '111111111111' and public = true] *)
Definition qualsOwnerPublic : KeyColumnQualMap :=
  {[ "owner_id" := equals "owner_id" (proto.StringValue "111111111111");
     "public" := equals "public" (proto.BoolValue true) ]}.

Definition emptyWorld : World := {| trace := []; commonColumnsCache := None |}.

Definition callerIdentity : awsCommonColumnData :=
  {| Partition := "aws"; Region := "us-east-1"; AccountId := "111111111111" |}.

Definition amazonImage : types.Image :=
  {| types.ImageId := Some "ami-0abcdef"; types.OwnerId := Some "137112412989";
     types.ImageOwnerAlias := Some "amazon" |}.

Definition ownImage : types.Image :=
  {| types.ImageId := Some "ami-01"; types.OwnerId := Some "111111111111";
     types.ImageOwnerAlias := None |}.

Definition foreignImage : types.Image :=
  {| types.ImageId := Some "ami-02"; types.OwnerId := Some "222222222222";
     types.ImageOwnerAlias := None |}.

(** ** The cursor of the paginator over a paged provider *)

(** The paginator of [listAWSExplorerSupportedTypes] about to ask for
    page [i]. *)
Definition paginatorAt (svc : resourceexplorer2.Client) (i : nat)
  : resourceexplorer2.Paginator :=
  {| resourceexplorer2.client := svc;
     resourceexplorer2.Limit := 100%Z;
     resourceexplorer2.StopOnDuplicateToken := true;
     resourceexplorer2.firstPage := i =? 0;
     resourceexplorer2.nextToken := cursor i |}.

(** The paginator once the provider has handed out no further token. *)
Definition paginatorEnd (svc : resourceexplorer2.Client) : resourceexplorer2.Paginator :=
  {| resourceexplorer2.client := svc;
     resourceexplorer2.Limit := 100%Z;
     resourceexplorer2.StopOnDuplicateToken := true;
     resourceexplorer2.firstPage := false;
     resourceexplorer2.nextToken := None |}.

(** A host that never asks to stop, and one that wants [limit] rows. *)
Definition unlimited : nat -> Z := fun _ => 2147483647%Z.
Definition wants (limit : nat) : nat -> Z := fun n => (Z.of_nat limit - Z.of_nat n)%Z.

Definition queryOf (keyQuals : gmap string proto.QualValue) (quals : KeyColumnQualMap)
    (remaining : nat -> Z) : plugin.QueryData :=
  {| plugin.d_KeyColumnQuals := keyQuals; plugin.d_Quals := quals;
     plugin.RowsRemaining := remaining |}.

(** [n] resource types, numbered from [start]. *)
Definition resourceTypes (start n : nat) : list types.SupportedResourceType :=
  (fun i => {| types.ResourceType := Some (pretty i); types.Service := Some "ec2" |})
    <$> seq start n.

(** [n] images of another account, numbered from [start]. *)
Definition images (start n : nat) : list types.Image :=
  (fun i => {| types.ImageId := Some (pretty i); types.OwnerId := Some "222222222222";
               types.ImageOwnerAlias := None |})
    <$> seq start n.

(** A provider response of page sizes [50; 50; 3], for each table. *)
Definition explorerPages : list (list types.SupportedResourceType) :=
  [resourceTypes 0 50; resourceTypes 50 50; resourceTypes 100 3].

Definition imagePages : list (list types.Image) :=
  [images 0 50; images 50 50; images 100 3].

(** [select ... where owner_id = '111111111111' and public = true] *)
Definition ownerQuery (remaining : nat -> Z) : plugin.QueryData :=
  queryOf {[ "owner_id" := proto.StringValue "111111111111";
             "public" := proto.BoolValue true ]}
          qualsOwnerPublic remaining.

(** ** The table definitions *)

Module table.

(** [proto.ColumnType], the values the two tables use. *)
Inductive ColumnType : Type :=
| ColumnType_STRING
| ColumnType_BOOL
| ColumnType_TIMESTAMP
| ColumnType_JSON.

(** [plugin.Required] and [plugin.Optional]. *)
Inductive Require : Type :=
| Required
| Optional.

(** [plugin.KeyColumn]; [Operators] is empty where the source leaves it
    out. *)
Record KeyColumn : Type :=
  { Name : string; Require_ : Require; Operators : list string }.

(** The transforms the two tables chain on a column. *)
Inductive Transform : Type :=
| FromName
| FromValue
| FromField (field : string)
| FromFieldNullIfZero (field : string)
| From (function : string).

(** [plugin.Column]; a hydrate function is named. *)
Record Column : Type :=
  { ColumnName : string;
    Type_ : ColumnType;
    Hydrate : option string;
    Transform_ : Transform }.

(** [plugin.Table], restricted to the key columns of [List] and to the
    columns handed to [awsRegionalColumns] or [awsDefaultColumns]. *)
Record Table : Type :=
  { TableName : string;
    GetKeyColumns : list KeyColumn;
    ListHydrate : string;
    ListKeyColumns : list KeyColumn;
    Columns : list Column }.

End table.

Definition column (name : string) (type : table.ColumnType) : table.Column :=
  {| table.ColumnName := name; table.Type_ := type;
     table.Hydrate := None; table.Transform_ := table.FromName |}.

Definition tableAwsEc2AmiShared : table.Table :=
  {| table.TableName := "aws_ec2_ami_shared";
     table.GetKeyColumns :=
       [{| table.Name := "image_id"; table.Require_ := table.Required;
           table.Operators := ["="] |}];
     table.ListHydrate := "listAmisByOwner";
     table.ListKeyColumns :=
       [{| table.Name := "owner_id"; table.Require_ := table.Required; table.Operators := [] |};
        {| table.Name := "architecture"; table.Require_ := table.Optional; table.Operators := [] |};
        {| table.Name := "description"; table.Require_ := table.Optional; table.Operators := [] |};
        {| table.Name := "ena_support"; table.Require_ := table.Optional;
           table.Operators := ["="; "<>"] |};
        {| table.Name := "hypervisor"; table.Require_ := table.Optional; table.Operators := [] |};
        {| table.Name := "image_type"; table.Require_ := table.Optional; table.Operators := [] |};
        {| table.Name := "public"; table.Require_ := table.Optional;
           table.Operators := ["="; "<>"] |};
        {| table.Name := "kernel_id"; table.Require_ := table.Optional; table.Operators := [] |};
        {| table.Name := "name"; table.Require_ := table.Optional; table.Operators := [] |};
        {| table.Name := "platform"; table.Require_ := table.Optional; table.Operators := [] |};
        {| table.Name := "ramdisk_id"; table.Require_ := table.Optional; table.Operators := [] |};
        {| table.Name := "root_device_name"; table.Require_ := table.Optional;
           table.Operators := [] |};
        {| table.Name := "root_device_type"; table.Require_ := table.Optional;
           table.Operators := [] |};
        {| table.Name := "state"; table.Require_ := table.Optional; table.Operators := [] |};
        {| table.Name := "sriov_net_support"; table.Require_ := table.Optional;
           table.Operators := [] |};
        {| table.Name := "virtualization_type"; table.Require_ := table.Optional;
           table.Operators := [] |}];
     table.Columns :=
       [column "name" table.ColumnType_STRING;
        column "image_id" table.ColumnType_STRING;
        column "state" table.ColumnType_STRING;
        column "image_type" table.ColumnType_STRING;
        column "image_location" table.ColumnType_STRING;
        column "creation_date" table.ColumnType_TIMESTAMP;
        column "architecture" table.ColumnType_STRING;
        column "description" table.ColumnType_STRING;
        column "ena_support" table.ColumnType_BOOL;
        column "hypervisor" table.ColumnType_STRING;
        {| table.ColumnName := "image_owner_alias"; table.Type_ := table.ColumnType_STRING;
           table.Hydrate := Some "getImageOwnerAlias";
           table.Transform_ := table.FromValue |};
        column "imds_support" table.ColumnType_STRING;
        column "kernel_id" table.ColumnType_STRING;
        column "owner_id" table.ColumnType_STRING;
        {| table.ColumnName := "platform"; table.Type_ := table.ColumnType_STRING;
           table.Hydrate := None;
           table.Transform_ := table.FromFieldNullIfZero "Platform" |};
        column "platform_details" table.ColumnType_STRING;
        column "public" table.ColumnType_BOOL;
        column "ramdisk_id" table.ColumnType_STRING;
        column "root_device_name" table.ColumnType_STRING;
        column "root_device_type" table.ColumnType_STRING;
        column "sriov_net_support" table.ColumnType_STRING;
        column "usage_operation" table.ColumnType_STRING;
        column "virtualization_type" table.ColumnType_STRING;
        column "block_device_mappings" table.ColumnType_JSON;
        column "product_codes" table.ColumnType_JSON;
        {| table.ColumnName := "tags_src"; table.Type_ := table.ColumnType_JSON;
           table.Hydrate := None; table.Transform_ := table.FromField "Tags" |};
        {| table.ColumnName := "title"; table.Type_ := table.ColumnType_STRING;
           table.Hydrate := None; table.Transform_ := table.From "getEc2AmiTurbotTitle" |};
        {| table.ColumnName := "tags"; table.Type_ := table.ColumnType_JSON;
           table.Hydrate := None; table.Transform_ := table.From "getEc2AmiTurbotTags" |};
        {| table.ColumnName := "akas"; table.Type_ := table.ColumnType_JSON;
           table.Hydrate := Some "getAwsEc2AmiAkas";
           table.Transform_ := table.FromValue |}] |}.

Definition tableAWSResourceExplorerSupportedResourceType : table.Table :=
  {| table.TableName := "aws_resource_explorer_supported_resource_type";
     table.GetKeyColumns := [];
     table.ListHydrate := "listAWSExplorerSupportedTypes";
     table.ListKeyColumns := [];
     table.Columns :=
       [column "resource_type" table.ColumnType_STRING;
        column "service" table.ColumnType_STRING] |}.

(** The declared type of a column of a table. *)
Definition columnType (t : table.Table) (name : string) : option table.ColumnType :=
  table.Type_ <$> List.find (fun c => String.eqb (table.ColumnName c) name) (table.Columns t).

(** ** Reading a run of the paginated listing *)

(** The pages a provider serves before its first failing call. *)
Fixpoint leading {A : Type} (script : list (error + list A)) : list (list A) :=
  match script with
  | inr p :: rest => p :: leading rest
  | _ => []
  end.

(** What the paginated listing may leave in the trace: its own requests,
    asking for at most 100 results, its rows and its checks. *)
Definition pagedEvent (e : Event) : Prop :=
  match e with
  | EvListSupportedResourceTypes input =>
      resourceexplorer2.MaxResults input = Some 100%Z
  | EvStreamListItem (ItResourceType _) => True
  | EvRowsRemaining => True
  | _ => False
  end.

(** The [RowsRemaining] checks made so far. *)
Fixpoint checks (t : list Event) : nat :=
  match t with
  | [] => 0
  | EvRowsRemaining :: t' => S (checks t')
  | _ :: t' => checks t'
  end.

(** An endpoint that answers every call with [page] and the token [tok]. *)
Definition serveSame (page : list types.SupportedResourceType) (tok : string)
  : resourceexplorer2.Client :=
  fun _ =>
    inr {| resourceexplorer2.NextToken_out := Some tok;
           resourceexplorer2.ResourceTypes := page |}.

(** [image_id = 'ami-0abcdef'] *)
Definition imageIdQual : plugin.KeyColumnQuals :=
  equals "image_id" (proto.StringValue "ami-0abcdef").

(** [owner_id = 42]: a literal that is no string. *)
Definition qualsOwnerNumber : KeyColumnQualMap :=
  {[ "owner_id" := equals "owner_id" (proto.Int64Value 42) ]}.

(** An image with neither alias nor owner id. *)
Definition bareImage : types.Image :=
  {| types.ImageId := Some "ami-03"; types.OwnerId := None;
     types.ImageOwnerAlias := None |}.

(** A host that wants no row at all. *)
Definition cancelled : nat -> Z := fun _ => 0%Z.

(** A world whose identity cache is filled. *)
Definition resolvedWorld : World :=
  {| trace := [EvGetCommonColumns]; commonColumnsCache := Some callerIdentity |}.

(** * Properties *)

(** ** The filter translator *)

Example columnsBool_printed :
  fmt_Sprint (VStringSlice columnsBool) = "[ena_support public]".
Proof. reflexivity. Qed.

Example strings_Contains_examples :
  strings_Contains "[ena_support public]" "public" = true /\
  strings_Contains "[ena_support public]" "name" = false /\
  strings_Contains "[ena_support public]" "" = true.
Proof. repeat split. Qed.

Section TranslatorFacts.

Variable getCommonColumns : error + awsCommonColumnData.
Variable getQualsValueByColumn : KeyColumnQualMap -> string -> string -> GoValue.

Lemma rangeFilterQuals_translated iteration quals filters :
  rangeFilterQuals getQualsValueByColumn iteration quals filters = filters ++ translated getQualsValueByColumn quals iteration.
Proof.
  revert filters. induction iteration as [|[c k] rest IH]; intros filters; simpl.
  - by rewrite app_nil_r.
  - unfold translated, present. rewrite filter_cons. simpl.
    destruct (quals !! c) as [kq|] eqn:Hq.
    + rewrite decide_True by eauto. rewrite IH. simpl.
      by rewrite <- app_assoc.
    + rewrite decide_False by (intros [? ?]; congruence). apply IH.
Qed.

Lemma columnFilter_Name quals c k : types.Name (columnFilter getQualsValueByColumn quals c k) = Some k.
Proof.
  unfold columnFilter.
  destruct (strings_Contains _ c); [done|].
  by destruct (getQualsValueByColumn quals c "string").
Qed.

Lemma translated_names quals entries :
  types.Name <$> translated getQualsValueByColumn quals entries = Some <$> (present quals entries).*2.
Proof.
  unfold translated. rewrite <- !list_fmap_compose. apply list_fmap_ext.
  intros i [c k] _. apply columnFilter_Name.
Qed.

Lemma translated_Permutation quals l1 l2 :
  l1 ≡ₚ l2 -> translated getQualsValueByColumn quals l1 ≡ₚ translated getQualsValueByColumn quals l2.
Proof.
  intros H. unfold translated, present. by rewrite H.
Qed.

(** The boolean-column test of the source, on the columns of the table,
    is membership in [columnsBool]. *)
Lemma boolean_test_on_table c k :
  (c, k) ∈ filterQuals ->
  strings_Contains (fmt_Sprint (VStringSlice columnsBool)) c = bool_decide (c ∈ columnsBool).
Proof.
  intros H. unfold filterQuals in H.
  repeat (apply elem_of_cons in H as [H|H]; [injection H as -> ->; vm_compute; reflexivity|]).
  by apply elem_of_nil in H.
Qed.

Lemma filterQuals_keys_NoDup : NoDup filterQuals.*1.
Proof. apply (bool_decide_unpack _); vm_compute; exact I. Qed.

Lemma filterQuals_names_NoDup : NoDup filterQuals.*2.
Proof. apply (bool_decide_unpack _); vm_compute; exact I. Qed.

Lemma filterQuals_no_owner c k : (c, k) ∈ filterQuals -> c <> "owner_id" /\ k <> "owner-id".
Proof.
  intros H. unfold filterQuals in H.
  repeat (apply elem_of_cons in H as [H|H]; [injection H as -> ->; split; discriminate|]).
  by apply elem_of_nil in H.
Qed.

Lemma present_elem quals entries c k :
  (c, k) ∈ present quals entries <-> (c, k) ∈ entries /\ is_Some (quals !! c).
Proof. unfold present. rewrite list_elem_of_filter. simpl. tauto. Qed.



Lemma present_names_NoDup quals iteration :
  iteration ≡ₚ filterQuals -> NoDup (present quals iteration).*2.
Proof.
  intros H. apply (sublist_NoDup _ iteration.*2).
  - rewrite H. apply filterQuals_names_NoDup.
  - apply fmap_sublist, sublist_filter.
Qed.

(** A present column of the table has exactly one filter in the range's
    output: the output splits around it, and no other filter bears its
    key. *)
Lemma translated_exactly_one iteration quals c k :
  iteration ≡ₚ filterQuals ->
  (c, k) ∈ filterQuals -> is_Some (quals !! c) ->
  exists before after,
    translated getQualsValueByColumn quals iteration
    = before ++ columnFilter getQualsValueByColumn quals c k :: after /\
    forall g, g ∈ before ++ after -> types.Name g <> Some k.
Proof.
  intros Hperm Hin Hq.
  assert (Hp : (c, k) ∈ present quals iteration).
  { apply present_elem. split; [by rewrite Hperm|done]. }
  apply list_elem_of_split in Hp as (l1 & l2 & Hsplit).
  pose proof (present_names_NoDup quals iteration Hperm) as Hnd.
  rewrite Hsplit, fmap_app, fmap_cons in Hnd. simpl in Hnd.
  apply NoDup_app in Hnd as (_ & Hl1 & Hnd).
  apply NoDup_cons in Hnd as [Hl2 _].
  exists ((fun ck => columnFilter getQualsValueByColumn quals ck.1 ck.2) <$> l1),
         ((fun ck => columnFilter getQualsValueByColumn quals ck.1 ck.2) <$> l2).
  split.
  - unfold translated. by rewrite Hsplit, fmap_app, fmap_cons.
  - intros g Hg Hname. apply elem_of_app in Hg as [Hg|Hg];
      apply list_elem_of_fmap in Hg as ([c' k'] & -> & Hg);
      rewrite columnFilter_Name in Hname; injection Hname as ->;
      simpl in Hg.
    + apply (Hl1 k); [by apply (list_elem_of_fmap_2 snd _ (c', k))|left].
    + apply Hl2. by apply (list_elem_of_fmap_2 snd _ (c', k)).
Qed.

Lemma translated_origin iteration quals g :
  iteration ≡ₚ filterQuals ->
  g ∈ translated getQualsValueByColumn quals iteration ->
  exists c k, (c, k) ∈ filterQuals /\ is_Some (quals !! c) /\
              g = columnFilter getQualsValueByColumn quals c k.
Proof.
  intros Hperm Hg. apply list_elem_of_fmap in Hg as ([c k] & -> & Hg).
  apply present_elem in Hg as [Hg Hq]. rewrite Hperm in Hg. eauto.
Qed.

Lemma columnFilter_boolean quals c k :
  (c, k) ∈ filterQuals -> c ∈ columnsBool ->
  columnFilter getQualsValueByColumn quals c k
  = {| types.Name := Some k;
       types.Values := [fmt_Sprint (getQualsValueByColumn quals c "boolean")] |}.
Proof.
  intros Hin Hb. unfold columnFilter.
  rewrite (boolean_test_on_table c k Hin). by rewrite bool_decide_true.
Qed.

Lemma columnFilter_string quals c k s :
  (c, k) ∈ filterQuals -> c ∉ columnsBool ->
  getQualsValueByColumn quals c "string" = VString s ->
  columnFilter getQualsValueByColumn quals c k
  = {| types.Name := Some k; types.Values := [s] |}.
Proof.
  intros Hin Hb Hv. unfold columnFilter.
  rewrite (boolean_test_on_table c k Hin), bool_decide_false by done.
  by rewrite Hv.
Qed.


(** C8 (as the code has it).  The filters of the column loop follow the
    order in which the run ranges over the map, which Go leaves open: the
    keys emitted are the table's filter names of the present columns, in
    range order.  Whatever that order, the result is a rearrangement of the
    one the written order of the table gives, with the same outcome and
    the same world. *)
Theorem buildAmisWithOwnerFilter_order_is_range_order
    iteration (quals : KeyColumnQualMap) amiType w :
  iteration ≡ₚ filterQuals ->
  types.Name <$> rangeFilterQuals getQualsValueByColumn iteration quals []
  = Some <$> (present quals iteration).*2 /\
  rangeFilterQuals getQualsValueByColumn iteration quals []
  ≡ₚ rangeFilterQuals getQualsValueByColumn filterQuals quals [] /\
  match buildAmisWithOwnerFilter getCommonColumns getQualsValueByColumn
          filterQuals quals amiType w with
  | (Returns written, w') =>
      exists filters,
        buildAmisWithOwnerFilter getCommonColumns getQualsValueByColumn
          iteration quals amiType w = (Returns filters, w') /\
        filters ≡ₚ written
  | (Panics, w') =>
      buildAmisWithOwnerFilter getCommonColumns getQualsValueByColumn
        iteration quals amiType w = (Panics, w')
  end.
Proof.
  intros Hperm.
  pose proof (translated_Permutation quals _ _ Hperm) as Htr.
  split; [|split].
  - rewrite rangeFilterQuals_translated. simpl. apply translated_names.
  - by rewrite !rangeFilterQuals_translated.
  - unfold buildAmisWithOwnerFilter. rewrite !rangeFilterQuals_translated. simpl.
    destruct (negb (amiType =? "SHARED_AMI")%string).
    + destruct (quals !! "owner_id").
      * destruct (getQualsValueByColumn quals "owner_id" "string");
          try reflexivity.
        eexists. split; [reflexivity|]. by rewrite Htr.
      * destruct (getCommonColumnsCached getCommonColumns w) as [[err|c] w'].
        -- eexists. split; [reflexivity|]. done.
        -- eexists. split; [reflexivity|]. by rewrite Htr.
    + eexists. split; [reflexivity|]. done.
Qed.


(** C6.  In the non-shared listing with no owner predicate, the identity
    is resolved only to add the owner scope.  When that call fails, the
    function returns the filters of the column loop as they are: no filter
    is keyed owner-id, and no error leaves the function (its result is the
    filter list alone). *)
Theorem buildAmisWithOwnerFilter_identity_failure
    iteration (quals : KeyColumnQualMap) amiType w err :
  iteration ≡ₚ filterQuals ->
  amiType <> "SHARED_AMI" ->
  quals !! "owner_id" = None ->
  commonColumnsCache w = None ->
  getCommonColumns = inl err ->
  buildAmisWithOwnerFilter getCommonColumns getQualsValueByColumn
    iteration quals amiType w
  = (Returns (rangeFilterQuals getQualsValueByColumn iteration quals []),
     log EvGetCommonColumns w) /\
  forall g, g ∈ rangeFilterQuals getQualsValueByColumn iteration quals [] ->
            types.Name g <> Some "owner-id".
Proof.
  intros Hperm Hne Hown Hcache Herr. split.
  - unfold buildAmisWithOwnerFilter, getCommonColumnsCached.
    rewrite Hown, Hcache, Herr.
    destruct (String.eqb_spec amiType "SHARED_AMI"); [done|reflexivity].
  - intros g Hg. rewrite rangeFilterQuals_translated in Hg. simpl in Hg.
    destruct (translated_origin iteration quals g Hperm Hg) as (c & k & Hin & _ & ->).
    rewrite columnFilter_Name.
    destruct (filterQuals_no_owner c k Hin) as [_ Hk]. congruence.
Qed.

(** The owner scope of the non-shared listing under an explicit owner
    predicate: the extracted string, with no identity call. *)
Lemma buildAmisWithOwnerFilter_explicit_owner
    iteration (quals : KeyColumnQualMap) amiType w s :
  amiType <> "SHARED_AMI" ->
  is_Some (quals !! "owner_id") ->
  getQualsValueByColumn quals "owner_id" "string" = VString s ->
  buildAmisWithOwnerFilter getCommonColumns getQualsValueByColumn
    iteration quals amiType w
  = (Returns (rangeFilterQuals getQualsValueByColumn iteration quals []
              ++ [{| types.Name := Some "owner-id"; types.Values := [s] |}]), w).
Proof.
  intros Hne [kq Hq] Hs. unfold buildAmisWithOwnerFilter. rewrite Hq, Hs.
  destruct (String.eqb_spec amiType "SHARED_AMI"); [done|reflexivity].
Qed.

(** A string column whose extracted value is no string still gets its
    filter, with an empty value set. *)
Lemma columnFilter_not_a_string quals c k :
  (c, k) ∈ filterQuals -> c ∉ columnsBool ->
  (forall s, getQualsValueByColumn quals c "string" <> VString s) ->
  columnFilter getQualsValueByColumn quals c k
  = {| types.Name := Some k; types.Values := [] |}.
Proof.
  intros Hin Hb Hv. unfold columnFilter.
  rewrite (boolean_test_on_table c k Hin), bool_decide_false by done.
  destruct (getQualsValueByColumn quals c "string"); try reflexivity.
  by destruct (Hv s).
Qed.

End TranslatorFacts.

(** ** The row enricher *)

Section EnricherFacts.

Variable getCommonColumns : error + awsCommonColumnData.

(** The identity is asked for before the image is looked at: when it
    cannot be resolved the error is the result, alias or not. *)
Lemma getImageOwnerAlias_identity_error image w err w' :
  getCommonColumnsCached getCommonColumns w = (inl err, w') ->
  getImageOwnerAlias getCommonColumns image w = (Returns (VNil, Some err), w').
Proof. intros H. unfold getImageOwnerAlias. by rewrite H. Qed.

(** C3 (as the code has it).  Once the caller's identity is resolved, from
    the cache or by a call that succeeds, [getImageOwnerAlias] returns
    "self" for an image without alias owned by the caller, the owner id for
    an image without alias owned by someone else, and the alias as it is
    for an image that has one.  When the identity cannot be resolved, the
    function returns that error for every image. *)
Theorem getImageOwnerAlias_cases image w r w' :
  getCommonColumnsCached getCommonColumns w = (r, w') ->
  match r with
  | inr c =>
      (forall o, types.ImageOwnerAlias image = None -> types.OwnerId image = Some o ->
                 o = AccountId c ->
                 getImageOwnerAlias getCommonColumns image w
                 = (Returns (VString "self", None), w')) /\
      (forall o, types.ImageOwnerAlias image = None -> types.OwnerId image = Some o ->
                 o <> AccountId c ->
                 getImageOwnerAlias getCommonColumns image w
                 = (Returns (VString o, None), w')) /\
      (forall alias, types.ImageOwnerAlias image = Some alias ->
                     getImageOwnerAlias getCommonColumns image w
                     = (Returns (VString alias, None), w'))
  | inl err =>
      getImageOwnerAlias getCommonColumns image w = (Returns (VNil, Some err), w')
  end.
Proof.
  intros H. unfold getImageOwnerAlias. rewrite H.
  destruct r as [err|c]; [reflexivity|]. cbn beta iota.
  split; [|split].
  - intros o -> -> ->. by rewrite String.eqb_refl.
  - intros o -> -> Hne.
    destruct (String.eqb_spec (AccountId c) o) as [Heq|_]; [congruence|reflexivity].
  - by intros alias ->.
Qed.

(** The cache answers without a call, and a call is made at most once. *)
Lemma getCommonColumnsCached_hit w c :
  commonColumnsCache w = Some c ->
  getCommonColumnsCached getCommonColumns w = (inr c, w).
Proof. intros H. unfold getCommonColumnsCached. by rewrite H. Qed.

Lemma getCommonColumnsCached_twice w c w' :
  getCommonColumnsCached getCommonColumns w = (inr c, w') ->
  getCommonColumnsCached getCommonColumns w' = (inr c, w').
Proof.
  unfold getCommonColumnsCached.
  destruct (commonColumnsCache w) as [c0|] eqn:Hc.
  - intros [= <- <-]. by rewrite Hc.
  - destruct getCommonColumns as [err|c1]; [done|]. by intros [= <- <-].
Qed.

End EnricherFacts.

(** ** The list functions *)

Section TraceFacts.

Lemma rows_app t1 t2 : rows (t1 ++ t2) = rows t1 ++ rows t2.
Proof.
  induction t1 as [|e t1 IH]; [done|].
  destruct e; simpl; by rewrite ?IH.
Qed.

Lemma fetches_app t1 t2 : fetches (t1 ++ t2) = fetches t1 + fetches t2.
Proof.
  induction t1 as [|e t1 IH]; [done|].
  destruct e; simpl; by rewrite ?IH.
Qed.

Lemma identityCalls_app t1 t2 :
  identityCalls (t1 ++ t2) = identityCalls t1 + identityCalls t2.
Proof.
  induction t1 as [|e t1 IH]; [done|].
  destruct e; simpl; by rewrite ?IH.
Qed.

Context {A : Type} (item : A -> Item).

Lemma emitted_cons x items :
  emitted item (x :: items)
  = EvStreamListItem (item x) :: EvRowsRemaining :: emitted item items.
Proof. reflexivity. Qed.

Lemma emitted_app l1 l2 : emitted item (l1 ++ l2) = emitted item l1 ++ emitted item l2.
Proof. unfold emitted. apply flat_map_app. Qed.

Lemma rows_emitted items : rows (emitted item items) = item <$> items.
Proof. induction items as [|x items IH]; [done|]. simpl. by rewrite IH. Qed.

Lemma fetches_emitted items : fetches (emitted item items) = 0.
Proof. induction items as [|x items IH]; [done|]. simpl. by rewrite IH. Qed.

Lemma identityCalls_emitted items : identityCalls (emitted item items) = 0.
Proof. induction items as [|x items IH]; [done|]. simpl. by rewrite IH. Qed.

Lemma emitted_no_fetch items input : EvDescribeImages input ∉ emitted item items.
Proof.
  induction items as [|x items IH]; [apply not_elem_of_nil|].
  rewrite emitted_cons. intros H.
  apply elem_of_cons in H as [H|H]; [done|].
  apply elem_of_cons in H as [H|H]; [done|]. by apply IH.
Qed.

Lemma logs_nil w : logs [] w = w.
Proof. destruct w. unfold logs. simpl. by rewrite app_nil_r. Qed.

Lemma logs_logs es1 es2 w : logs es2 (logs es1 w) = logs (es1 ++ es2) w.
Proof. unfold logs. simpl. by rewrite app_assoc. Qed.

Lemma log_logs e w : log e w = logs [e] w.
Proof. reflexivity. Qed.

(** *** The loop over the items of one response *)

Section Range.

Variable d : plugin.QueryData.

Lemma streamRange_cons x items w :
  streamRange item d (x :: items) w
  = if (plugin.RowsRemaining d (S (length (rows (trace w)))) =? 0)%Z
    then (true, logs [EvStreamListItem (item x); EvRowsRemaining] w)
    else streamRange item d items (logs [EvStreamListItem (item x); EvRowsRemaining] w).
Proof.
  simpl. rewrite rows_app, length_app. simpl. rewrite Nat.add_1_r.
  unfold StreamListItem. rewrite !log_logs, logs_logs. reflexivity.
Qed.

Lemma rows_logs_pair x w :
  length (rows (trace (logs [EvStreamListItem (item x); EvRowsRemaining] w)))
  = S (length (rows (trace w))).
Proof. simpl. rewrite rows_app, length_app. simpl. lia. Qed.

(** With a host that wants every row of the response, all are streamed
    and the loop falls through. *)
Lemma streamRange_all items w :
  (forall n, length (rows (trace w)) < n <= length (rows (trace w)) + length items ->
             plugin.RowsRemaining d n <> 0%Z) ->
  streamRange item d items w = (false, logs (emitted item items) w).
Proof.
  revert w. induction items as [|x items IH]; intros w Hwant.
  - simpl. by rewrite logs_nil.
  - rewrite streamRange_cons.
    destruct (Z.eqb_spec (plugin.RowsRemaining d (S (length (rows (trace w))))) 0) as [E|_].
    + exfalso. revert E. apply Hwant. simpl. lia.
    + rewrite IH.
      * by rewrite logs_logs.
      * intros n Hn. rewrite rows_logs_pair in Hn. apply Hwant. simpl. lia.
Qed.

(** When the host first answers 0 after the [k]-th row, and the response
    reaches that row, the loop returns right after it. *)
Lemma streamRange_stop k items w :
  length (rows (trace w)) < k <= length (rows (trace w)) + length items ->
  (forall n, length (rows (trace w)) < n < k -> plugin.RowsRemaining d n <> 0%Z) ->
  plugin.RowsRemaining d k = 0%Z ->
  streamRange item d items w
  = (true, logs (emitted item (firstn (k - length (rows (trace w))) items)) w).
Proof.
  revert w. induction items as [|x items IH]; intros w Hk Hwant Hstop.
  - simpl in Hk. lia.
  - rewrite streamRange_cons.
    destruct (decide (k = S (length (rows (trace w))))) as [->|Hne].
    + rewrite Hstop. simpl.
      replace (S (length (rows (trace w))) - length (rows (trace w))) with 1 by lia.
      reflexivity.
    + destruct (Z.eqb_spec (plugin.RowsRemaining d (S (length (rows (trace w))))) 0)
        as [E|_].
      * exfalso. revert E. apply Hwant. lia.
      * rewrite IH.
        -- rewrite logs_logs, rows_logs_pair.
           replace (k - length (rows (trace w)))
             with (S (k - S (length (rows (trace w))))) by lia.
           reflexivity.
        -- rewrite rows_logs_pair. simpl in Hk. lia.
        -- intros n Hn. rewrite rows_logs_pair in Hn. apply Hwant. lia.
        -- done.
Qed.

(** Whatever the host answers, the loop streams a prefix of the response,
    each row followed by its check. *)
Lemma streamRange_prefix items w :
  exists stopped n,
    streamRange item d items w = (stopped, logs (emitted item (firstn n items)) w).
Proof.
  revert w. induction items as [|x items IH]; intros w.
  - exists false, 0. simpl. by rewrite logs_nil.
  - rewrite streamRange_cons.
    destruct (plugin.RowsRemaining d (S (length (rows (trace w)))) =? 0)%Z.
    + by exists true, 1.
    + destruct (IH (logs [EvStreamListItem (item x); EvRowsRemaining] w))
        as (stopped & n & ->).
      exists stopped, (S n). by rewrite logs_logs.
Qed.

End Range.

End TraceFacts.

(** *** The paginator over a paged provider *)

Section PaginatorFacts.

Lemma length_tokenOf i : String.length (tokenOf i) = i.
Proof. induction i as [|i IH]; [done|]. simpl. by rewrite IH. Qed.

Lemma pageIndex_cursor i : pageIndex (cursor i) = i.
Proof. destruct i; [done|]. unfold cursor, pageIndex. apply length_tokenOf. Qed.

Lemma tokenOf_fresh i : (tokenOf i =? tokenOf (S i))%string = false.
Proof.
  destruct (String.eqb_spec (tokenOf i) (tokenOf (S i))) as [E|_]; [|done].
  apply (f_equal String.length) in E. rewrite !length_tokenOf in E. lia.
Qed.

Lemma drop_cons_inv {A} (l : list A) i x rest :
  drop i l = x :: rest ->
  l !! i = Some x /\ drop (S i) l = rest /\ length l = i + S (length rest).
Proof.
  revert i. induction l as [|a l IH]; intros i H.
  - by destruct i.
  - destruct i as [|i].
    + simpl in H. injection H as -> ->. simpl. rewrite drop_0. auto.
    + simpl in H. destruct (IH i H) as (H1 & H2 & H3). simpl. auto.
Qed.

Variable script : list (error + list types.SupportedResourceType).

Lemma request_at i :
  resourceexplorer2.request (paginatorAt (servePages script) i) = pageRequest i.
Proof. reflexivity. Qed.

Lemma HasMorePages_at i :
  resourceexplorer2.HasMorePages (paginatorAt (servePages script) i) = true.
Proof. by destruct i. Qed.

Lemma HasMorePages_end :
  resourceexplorer2.HasMorePages (paginatorEnd (servePages script)) = false.
Proof. reflexivity. Qed.

(** The cursor after page [i]: the next page while the provider hands out
    a token, the end otherwise. *)
Lemma NextPage_at i items :
  script !! i = Some (inr items) ->
  resourceexplorer2.NextPage (paginatorAt (servePages script) i)
  = (inr {| resourceexplorer2.NextToken_out :=
              if S i <? length script then cursor (S i) else None;
            resourceexplorer2.ResourceTypes := items |},
     if S i <? length script then paginatorAt (servePages script) (S i)
     else paginatorEnd (servePages script)).
Proof.
  intros H. unfold resourceexplorer2.NextPage. rewrite request_at.
  cbn [resourceexplorer2.client paginatorAt]. unfold servePages at 1.
  cbn [resourceexplorer2.NextToken pageRequest]. rewrite pageIndex_cursor, H.
  cbn [resourceexplorer2.NextToken_out resourceexplorer2.nextToken
       resourceexplorer2.StopOnDuplicateToken resourceexplorer2.Limit].
  destruct (S i <? length script).
  - destruct i as [|i]; [reflexivity|].
    cbn [cursor paginatorAt andb resourceexplorer2.nextToken
         resourceexplorer2.StopOnDuplicateToken resourceexplorer2.Limit].
    rewrite tokenOf_fresh. reflexivity.
  - destruct i as [|i]; reflexivity.
Qed.

(** A failed call leaves the cursor where it was. *)
Lemma NextPage_error i err :
  script !! i = Some (inl err) ->
  resourceexplorer2.NextPage (paginatorAt (servePages script) i)
  = (inl err, paginatorAt (servePages script) i).
Proof.
  intros H. unfold resourceexplorer2.NextPage. rewrite request_at.
  cbn [resourceexplorer2.client paginatorAt]. unfold servePages at 1.
  cbn [resourceexplorer2.NextToken pageRequest]. by rewrite pageIndex_cursor, H.
Qed.

Variable d : plugin.QueryData.

(** One turn of the loop on a page that is served. *)
Lemma pagesLoop_page i items fuel w :
  script !! i = Some (inr items) ->
  pagesLoop (S fuel) d (paginatorAt (servePages script) i) w
  = let '(stopped, w2) :=
      streamRange ItResourceType d items
        (logs [EvListSupportedResourceTypes (pageRequest i)] w) in
    if stopped then (StoppedEarly, w2)
    else pagesLoop fuel d
           (if S i <? length script then paginatorAt (servePages script) (S i)
            else paginatorEnd (servePages script)) w2.
Proof.
  intros H. cbn [pagesLoop].
  rewrite HasMorePages_at, request_at, (NextPage_at i items H). reflexivity.
Qed.

(** One turn of the loop on a page whose call fails. *)
Lemma pagesLoop_error i err fuel w :
  script !! i = Some (inl err) ->
  pagesLoop (S fuel) d (paginatorAt (servePages script) i) w
  = (ApiError err, logs [EvListSupportedResourceTypes (pageRequest i)] w).
Proof.
  intros H. cbn [pagesLoop].
  rewrite HasMorePages_at, request_at, (NextPage_error i err H). reflexivity.
Qed.

Lemma pagesLoop_end fuel w :
  pagesLoop (S fuel) d (paginatorEnd (servePages script)) w = (Done, w).
Proof. reflexivity. Qed.

Lemma rows_logs_fetch i w :
  rows (trace (logs [EvListSupportedResourceTypes (pageRequest i)] w)) = rows (trace w).
Proof. simpl. rewrite rows_app. simpl. by rewrite app_nil_r. Qed.

Lemma rows_logs_emitted {A} (item : A -> Item) items w :
  length (rows (trace (logs (emitted item items) w)))
  = length (rows (trace w)) + length items.
Proof. simpl. by rewrite rows_app, length_app, rows_emitted, length_fmap. Qed.

(** Walking the pages [pre] that are followed by further pages, with a
    host that wants all their rows. *)
Lemma pagesLoop_walk pre :
  forall i w fuel tail,
    drop i script = (inr <$> pre) ++ tail -> tail <> [] ->
    (forall n, length (rows (trace w)) < n <= length (rows (trace w)) + length (concat pre) ->
               plugin.RowsRemaining d n <> 0%Z) ->
    pagesLoop (length pre + fuel) d (paginatorAt (servePages script) i) w
    = pagesLoop fuel d (paginatorAt (servePages script) (i + length pre))
        (logs (walked i pre) w).
Proof.
  induction pre as [|p pre IH]; intros i w fuel tail Hdrop Htail Hwant.
  - simpl. by rewrite Nat.add_0_r, logs_nil.
  - rewrite fmap_cons in Hdrop. simpl in Hdrop.
    apply drop_cons_inv in Hdrop as (Hi & Hdrop & Hlen).
    simpl in Hwant. rewrite length_app in Hwant.
    cbn [length Nat.add]. rewrite (pagesLoop_page i p _ w Hi).
    rewrite streamRange_all
      by (intros n Hn; rewrite rows_logs_fetch in Hn; apply Hwant; lia).
    assert (Hmore : (S i <? length script) = true).
    { apply Nat.ltb_lt. rewrite Hlen, length_app, length_fmap.
      destruct tail; [done|]. simpl. lia. }
    rewrite Hmore, (IH (S i) _ fuel tail Hdrop Htail).
    + rewrite !logs_logs. simpl. by rewrite Nat.add_succ_r.
    + intros n Hn. rewrite rows_logs_emitted, rows_logs_fetch in Hn.
      apply Hwant. lia.
Qed.

(** Returning after the [k]-th row of the query. *)
Lemma pagesLoop_stop k rest :
  forall i w fuel tail,
    drop i script = (inr <$> rest) ++ tail ->
    length (rows (trace w)) < k <= length (rows (trace w)) + length (concat rest) ->
    (forall n, length (rows (trace w)) < n < k -> plugin.RowsRemaining d n <> 0%Z) ->
    plugin.RowsRemaining d k = 0%Z ->
    length rest <= fuel ->
    pagesLoop fuel d (paginatorAt (servePages script) i) w
    = (StoppedEarly, logs (walkedUntil (k - length (rows (trace w))) i rest) w).
Proof.
  induction rest as [|p rest IH]; intros i w fuel tail Hdrop Hk Hwant Hstop Hfuel.
  - simpl in Hk. lia.
  - rewrite fmap_cons in Hdrop. simpl in Hdrop.
    apply drop_cons_inv in Hdrop as (Hi & Hdrop & Hlen).
    simpl in Hk. rewrite length_app in Hk.
    destruct fuel as [|fuel]; [simpl in Hfuel; lia|].
    rewrite (pagesLoop_page i p _ w Hi). cbn [walkedUntil].
    destruct (Nat.leb_spec (k - length (rows (trace w))) (length p)) as [Hle|Hgt].
    + rewrite (streamRange_stop _ d k)
        by (rewrite ?rows_logs_fetch; try done; lia).
      rewrite rows_logs_fetch, logs_logs. reflexivity.
    + rewrite streamRange_all
        by (intros n Hn; rewrite rows_logs_fetch in Hn; apply Hwant; lia).
      assert (Hmore : (S i <? length script) = true).
      { apply Nat.ltb_lt. rewrite Hlen, length_app, length_fmap.
        destruct rest; [simpl in Hk; lia|]. simpl. lia. }
      rewrite Hmore, (IH (S i) _ fuel tail Hdrop).
      * rewrite rows_logs_emitted, rows_logs_fetch, !logs_logs. simpl.
        by rewrite Nat.sub_add_distr.
      * rewrite rows_logs_emitted, rows_logs_fetch. lia.
      * intros n Hn. rewrite rows_logs_emitted, rows_logs_fetch in Hn.
        apply Hwant. lia.
      * done.
      * simpl in Hfuel. lia.
Qed.

End PaginatorFacts.

(** *** What a walk of the pages leaves in the trace *)

Section WalkFacts.

Lemma walked_app i l1 l2 :
  walked i (l1 ++ l2) = walked i l1 ++ walked (i + length l1) l2.
Proof.
  revert i. induction l1 as [|p l1 IH]; intros i; simpl.
  - by rewrite Nat.add_0_r.
  - rewrite IH, <- app_assoc, Nat.add_succ_r. reflexivity.
Qed.

Lemma rows_walked i pages : rows (walked i pages) = ItResourceType <$> concat pages.
Proof.
  revert i. induction pages as [|p pages IH]; intros i; [done|].
  simpl. by rewrite rows_app, rows_emitted, IH, fmap_app.
Qed.

Lemma fetches_walked i pages : fetches (walked i pages) = length pages.
Proof.
  revert i. induction pages as [|p pages IH]; intros i; [done|].
  simpl. by rewrite fetches_app, fetches_emitted, IH.
Qed.

Lemma rows_walkedUntil k i pages :
  rows (walkedUntil k i pages) = ItResourceType <$> firstn k (concat pages).
Proof.
  revert k i. induction pages as [|p pages IH]; intros k i.
  - simpl. by rewrite firstn_nil.
  - simpl. rewrite firstn_app, fmap_app.
    destruct (Nat.leb_spec k (length p)) as [Hle|Hgt].
    + rewrite rows_emitted.
      replace (k - length p) with 0 by lia. simpl. by rewrite app_nil_r.
    + rewrite rows_app, rows_emitted, IH.
      rewrite (firstn_all2 (n:=k) p) by lia. reflexivity.
Qed.

Lemma fetches_walkedUntil k i pages :
  fetches (walkedUntil k i pages) = pagesHolding k pages.
Proof.
  revert k i. induction pages as [|p pages IH]; intros k i; [done|].
  simpl. destruct (k <=? length p).
  - by rewrite fetches_emitted.
  - by rewrite fetches_app, fetches_emitted, IH.
Qed.

(** [pagesHolding k pages] is the number of the page that holds row [k]:
    the pages before it hold fewer than [k] rows. *)
Lemma pagesHolding_spec {A} k (pages : list (list A)) :
  0 < k <= length (concat pages) ->
  0 < pagesHolding k pages <= length pages /\
  length (concat (firstn (pagesHolding k pages - 1) pages)) < k /\
  k <= length (concat (firstn (pagesHolding k pages) pages)).
Proof.
  revert k. induction pages as [|p pages IH]; intros k Hk.
  - simpl in Hk. lia.
  - simpl in Hk. rewrite length_app in Hk. cbn [pagesHolding].
    destruct (Nat.leb_spec k (length p)) as [Hle|Hgt].
    + simpl. rewrite ?firstn_0. simpl. rewrite ?length_app. simpl. lia.
    + destruct (IH (k - length p)) as (Hh & Hlt & Hge); [lia|].
      replace (S (pagesHolding (k - length p) pages) - 1)
        with (S (pagesHolding (k - length p) pages - 1)) by lia.
      simpl. rewrite !length_app. lia.
Qed.

End WalkFacts.

(** *** The two list functions *)

Section ListFacts.

Variable getCommonColumns : error + awsCommonColumnData.
Variable getQualsValueByColumn : KeyColumnQualMap -> string -> string -> GoValue.
Variable iteration : list (string * string).
Variable d : plugin.QueryData.

(** [listAmisByOwner] once the session is there: one call, then the loop
    over the images of its response. *)
Lemma listAmisByOwner_call svc w :
  listAmisByOwner getCommonColumns getQualsValueByColumn (inr svc) iteration d w
  = let input := describeImagesInput getQualsValueByColumn iteration d in
    match svc input with
    | inl err => (ApiError err, logs [EvDescribeImages input] w)
    | inr resp =>
        let '(stopped, w3) :=
          streamRange ItImage d (ec2.Images resp) (logs [EvDescribeImages input] w) in
        if stopped then (StoppedEarly, w3) else (Done, w3)
    end.
Proof.
  unfold listAmisByOwner, buildAmisWithOwnerFilter, describeImagesInput.
  cbn [String.eqb Ascii.eqb Bool.eqb negb andb].
  by destruct (rangeFilterQuals getQualsValueByColumn iteration (plugin.d_Quals d) []).
Qed.

Lemma rows_logs_call input w :
  rows (trace (logs [EvDescribeImages input] w)) = rows (trace w).
Proof. simpl. rewrite rows_app. simpl. by rewrite app_nil_r. Qed.

(** The paginated listing once the client is there. *)
Lemma listAWSExplorerSupportedTypes_loop svc fuel w :
  listAWSExplorerSupportedTypes (inr (Some svc)) fuel d w
  = pagesLoop fuel d (paginatorAt svc 0) w.
Proof. reflexivity. Qed.

(** The paginated listing with a host that wants every row. *)
Lemma listAWSExplorerSupportedTypes_done pages fuel w :
  pages <> [] -> length pages < fuel ->
  (forall n, length (rows (trace w)) < n <= length (rows (trace w)) + length (concat pages) ->
             plugin.RowsRemaining d n <> 0%Z) ->
  listAWSExplorerSupportedTypes (inr (Some (servePages (inr <$> pages)))) fuel d w
  = (Done, logs (walked 0 pages) w).
Proof.
  intros Hne Hfuel Hwant. rewrite listAWSExplorerSupportedTypes_loop.
  destruct (exists_last Hne) as (pre & p & ->).
  rewrite length_app in Hfuel. simpl in Hfuel.
  rewrite concat_app, length_app in Hwant. simpl in Hwant.
  rewrite app_nil_r in Hwant.
  replace fuel with (length pre + S (S (fuel - length pre - 2))) by lia.
  rewrite (pagesLoop_walk _ d pre 0 w _ [inr p]).
  - rewrite (pagesLoop_page _ d (0 + length pre) p).
    + rewrite streamRange_all.
      * replace (S (0 + length pre) <? length (inr <$> pre ++ [p])) with false.
        -- rewrite pagesLoop_end, walked_app, !logs_logs. simpl.
           by rewrite app_nil_r.
        -- symmetry. apply Nat.ltb_ge. rewrite length_fmap, length_app. simpl. lia.
      * intros n Hn. rewrite rows_logs_fetch in Hn.
        simpl in Hn. rewrite rows_app, length_app, rows_walked, length_fmap in Hn.
        apply Hwant. lia.
    + rewrite fmap_app. simpl.
      rewrite lookup_app_r by (rewrite length_fmap; lia).
      rewrite length_fmap. by replace (length pre - length pre) with 0 by lia.
  - rewrite drop_0, fmap_app. reflexivity.
  - done.
  - intros n Hn. apply Hwant. lia.
Qed.

(** The paginated listing when a call fails after the pages [oks]. *)
Lemma listAWSExplorerSupportedTypes_error oks err tail fuel w :
  length oks < fuel ->
  (forall n, length (rows (trace w)) < n <= length (rows (trace w)) + length (concat oks) ->
             plugin.RowsRemaining d n <> 0%Z) ->
  listAWSExplorerSupportedTypes
    (inr (Some (servePages ((inr <$> oks) ++ inl err :: tail)))) fuel d w
  = (ApiError err,
     logs (walked 0 oks ++ [EvListSupportedResourceTypes (pageRequest (length oks))]) w).
Proof.
  intros Hfuel Hwant. rewrite listAWSExplorerSupportedTypes_loop.
  replace fuel with (length oks + S (fuel - length oks - 1)) by lia.
  rewrite (pagesLoop_walk _ d oks 0 w _ (inl err :: tail)); [|by rewrite drop_0|done|done].
  rewrite (pagesLoop_error _ d (0 + length oks) err).
  - by rewrite logs_logs.
  - rewrite lookup_app_r by (rewrite length_fmap; lia).
    rewrite length_fmap. by replace (0 + length oks - length oks) with 0 by lia.
Qed.

(** The paginated listing when the host first answers 0 after row [k]. *)
Lemma listAWSExplorerSupportedTypes_stop k pages fuel w :
  length (rows (trace w)) < k <= length (rows (trace w)) + length (concat pages) ->
  (forall n, length (rows (trace w)) < n < k -> plugin.RowsRemaining d n <> 0%Z) ->
  plugin.RowsRemaining d k = 0%Z ->
  length pages <= fuel ->
  listAWSExplorerSupportedTypes (inr (Some (servePages (inr <$> pages)))) fuel d w
  = (StoppedEarly, logs (walkedUntil (k - length (rows (trace w))) 0 pages) w).
Proof.
  intros Hk Hwant Hstop Hfuel. rewrite listAWSExplorerSupportedTypes_loop.
  apply (pagesLoop_stop _ d k pages 0 w fuel []); try done.
  by rewrite drop_0, app_nil_r.
Qed.

End ListFacts.

(** ** Listing: the main results *)

Section ListClaims.

Variable getCommonColumns : error + awsCommonColumnData.
Variable getQualsValueByColumn : KeyColumnQualMap -> string -> string -> GoValue.
Variable iteration : list (string * string).
Variable d : plugin.QueryData.

(** C1 (as the code has it).  With a host that never asks to stop, the
    paginated listing [listAWSExplorerSupportedTypes] streams every item of
    every page of the provider's response, in order, with one call per
    page, and leaves through [Done]: 103 rows for pages of 50, 50 and 3.
    [listAmisByOwner] does not paginate: it makes one [DescribeImages]
    call, streams every image of that one response, and leaves through
    [Done]. *)
Theorem listers_stream_every_row svc resp pages fuel w :
  (forall n, plugin.RowsRemaining d n <> 0%Z) ->
  pages <> [] -> length pages < fuel ->
  svc (describeImagesInput getQualsValueByColumn iteration d) = inr resp ->
  (listAWSExplorerSupportedTypes (inr (Some (servePages (inr <$> pages)))) fuel d w
   = (Done, logs (walked 0 pages) w) /\
   rows (walked 0 pages) = ItResourceType <$> concat pages /\
   fetches (walked 0 pages) = length pages /\
   (length <$> pages = [50; 50; 3] -> length (rows (walked 0 pages)) = 103)) /\
  (listAmisByOwner getCommonColumns getQualsValueByColumn (inr svc) iteration d w
   = (Done,
      logs (EvDescribeImages (describeImagesInput getQualsValueByColumn iteration d)
            :: emitted ItImage (ec2.Images resp)) w) /\
   rows (EvDescribeImages (describeImagesInput getQualsValueByColumn iteration d)
         :: emitted ItImage (ec2.Images resp))
   = ItImage <$> ec2.Images resp /\
   fetches (EvDescribeImages (describeImagesInput getQualsValueByColumn iteration d)
            :: emitted ItImage (ec2.Images resp)) = 1).
Proof.
  intros Hwant Hne Hfuel Hresp. split; [split; [|split; [|split]]|split; [|split]].
  - apply listAWSExplorerSupportedTypes_done; auto.
  - apply rows_walked.
  - apply fetches_walked.
  - intros Hsizes. rewrite rows_walked, length_fmap.
    destruct pages as [|a [|b [|c [|? ?]]]]; try discriminate.
    injection Hsizes as Ha Hb Hc. simpl. rewrite !length_app, Ha, Hb, Hc. reflexivity.
  - rewrite listAmisByOwner_call. cbn zeta. rewrite Hresp.
    rewrite streamRange_all by (intros n _; apply Hwant).
    by rewrite logs_logs.
  - simpl. apply rows_emitted.
  - simpl. by rewrite fetches_emitted.
Qed.

(** C4.  Take a query that has streamed no row yet and a host that first
    answers 0 right after the 10th row.  When the provider's pages hold at
    least 10 rows, the paginated listing leaves through [StoppedEarly]
    having streamed exactly the first 10 rows, each followed by its check,
    and having fetched the pages up to the one that holds the 10th row and
    none after it.  When the response of [DescribeImages] holds at least
    10 images, [listAmisByOwner] does the same after its one call. *)
Theorem listers_stop_after_tenth_row svc resp pages fuel w :
  rows (trace w) = [] ->
  (forall n, 0 < n < 10 -> plugin.RowsRemaining d n <> 0%Z) ->
  plugin.RowsRemaining d 10 = 0%Z ->
  (10 <= length (concat pages) -> length pages <= fuel ->
   listAWSExplorerSupportedTypes (inr (Some (servePages (inr <$> pages)))) fuel d w
   = (StoppedEarly, logs (walkedUntil 10 0 pages) w) /\
   rows (walkedUntil 10 0 pages) = ItResourceType <$> firstn 10 (concat pages) /\
   length (rows (walkedUntil 10 0 pages)) = 10 /\
   fetches (walkedUntil 10 0 pages) = pagesHolding 10 pages /\
   length (concat (firstn (pagesHolding 10 pages - 1) pages)) < 10 /\
   10 <= length (concat (firstn (pagesHolding 10 pages) pages))) /\
  (svc (describeImagesInput getQualsValueByColumn iteration d) = inr resp ->
   10 <= length (ec2.Images resp) ->
   listAmisByOwner getCommonColumns getQualsValueByColumn (inr svc) iteration d w
   = (StoppedEarly,
      logs (EvDescribeImages (describeImagesInput getQualsValueByColumn iteration d)
            :: emitted ItImage (firstn 10 (ec2.Images resp))) w) /\
   length (rows (EvDescribeImages (describeImagesInput getQualsValueByColumn iteration d)
                 :: emitted ItImage (firstn 10 (ec2.Images resp)))) = 10 /\
   fetches (EvDescribeImages (describeImagesInput getQualsValueByColumn iteration d)
            :: emitted ItImage (firstn 10 (ec2.Images resp))) = 1).
Proof.
  intros Hfresh Hwant Hstop. split.
  - intros Hrows Hfuel.
    destruct (pagesHolding_spec 10 pages) as (_ & Hbefore & Hupto); [lia|].
    split; [|split; [|split; [|split; [|split]]]]; try done.
    + rewrite (listAWSExplorerSupportedTypes_stop d 10 pages fuel w).
      * by rewrite Hfresh.
      * rewrite Hfresh. simpl. lia.
      * intros n Hn. rewrite Hfresh in Hn. apply Hwant. simpl in Hn. lia.
      * done.
      * done.
    + apply rows_walkedUntil.
    + rewrite rows_walkedUntil, length_fmap, length_take. lia.
    + apply fetches_walkedUntil.
  - intros Hresp Himages. split; [|split].
    + rewrite listAmisByOwner_call. cbn zeta. rewrite Hresp.
      rewrite (streamRange_stop ItImage d 10).
      * by rewrite rows_logs_call, Hfresh, logs_logs.
      * rewrite rows_logs_call, Hfresh. simpl. lia.
      * intros n Hn. rewrite rows_logs_call, Hfresh in Hn. apply Hwant.
        simpl in Hn. lia.
      * done.
    + simpl. rewrite rows_emitted, length_fmap, length_take. lia.
    + simpl. by rewrite fetches_emitted.
Qed.

(** C5.  With an owner predicate [owner_id = s] among the key column
    quals, every [DescribeImages] call of [listAmisByOwner] carries
    [Owners = [s]], the request is the first thing sent once the session
    is there, and the run makes no identity call and leaves the identity
    cache as it was.  The non-shared listing, under an owner predicate
    whose extracted value is the string [v], scopes with the filter
    owner-id = [v] and makes no identity call either. *)
Theorem listAmisByOwner_explicit_owner client s w :
  plugin.d_KeyColumnQuals d !! "owner_id" = Some (proto.StringValue s) ->
  (exists x evs,
     listAmisByOwner getCommonColumns getQualsValueByColumn client iteration d w
     = (x, logs evs w) /\
     identityCalls evs = 0 /\
     (forall input, EvDescribeImages input ∈ evs -> ec2.Owners input = [s]) /\
     (forall svc, client = inr svc ->
        exists rest,
          evs = EvDescribeImages (describeImagesInput getQualsValueByColumn iteration d)
                :: rest /\
          ec2.Owners (describeImagesInput getQualsValueByColumn iteration d) = [s])) /\
  (forall (quals : KeyColumnQualMap) amiType w0 v,
     amiType <> "SHARED_AMI" -> is_Some (quals !! "owner_id") ->
     getQualsValueByColumn quals "owner_id" "string" = VString v ->
     buildAmisWithOwnerFilter getCommonColumns getQualsValueByColumn
       iteration quals amiType w0
     = (Returns (rangeFilterQuals getQualsValueByColumn iteration quals []
                 ++ [{| types.Name := Some "owner-id"; types.Values := [v] |}]), w0)).
Proof.
  intros Howner.
  assert (Hs : ec2.Owners (describeImagesInput getQualsValueByColumn iteration d) = [s]).
  { unfold describeImagesInput. simpl. by rewrite Howner. }
  split; [|apply buildAmisWithOwnerFilter_explicit_owner].
  destruct client as [err|svc].
  - exists (ConnectionError err), []. rewrite logs_nil.
    split; [done|]. split; [done|]. split; [|done].
    intros input H. by apply elem_of_nil in H.
  - rewrite listAmisByOwner_call. cbn zeta.
    set (input := describeImagesInput getQualsValueByColumn iteration d) in *.
    destruct (svc input) as [err|resp].
    + exists (ApiError err), [EvDescribeImages input].
      split; [done|]. split; [done|]. split.
      * intros i H. apply list_elem_of_singleton in H. by injection H as ->.
      * intros svc' _. by exists [].
    + destruct (streamRange_prefix ItImage d (ec2.Images resp)
                  (logs [EvDescribeImages input] w)) as (stopped & n & ->).
      exists (if stopped then StoppedEarly else Done),
             (EvDescribeImages input :: emitted ItImage (firstn n (ec2.Images resp))).
      split; [by destruct stopped; rewrite logs_logs|].
      split; [simpl; apply identityCalls_emitted|]. split.
      * intros i H. apply elem_of_cons in H as [H|H]; [by injection H as ->|].
        by apply emitted_no_fetch in H.
      * intros svc' _. by eexists.
Qed.

(** C7.  When a provider call fails, the listing returns that very error
    at once.  For the paginated listing, failing after the pages [oks]:
    the trace ends with the failed call, made once, right after the rows
    of [oks]; no row follows and the identity cache is as it was.  For
    [listAmisByOwner], failing on its one call: no row is streamed. *)
Theorem listers_abort_on_fetch_error svc oks err tail fuel w :
  (length oks < fuel ->
   (forall n, length (rows (trace w)) < n <= length (rows (trace w)) + length (concat oks) ->
              plugin.RowsRemaining d n <> 0%Z) ->
   listAWSExplorerSupportedTypes
     (inr (Some (servePages ((inr <$> oks) ++ inl err :: tail)))) fuel d w
   = (ApiError err,
      logs (walked 0 oks ++ [EvListSupportedResourceTypes (pageRequest (length oks))]) w) /\
   rows (walked 0 oks ++ [EvListSupportedResourceTypes (pageRequest (length oks))])
   = ItResourceType <$> concat oks /\
   fetches (walked 0 oks ++ [EvListSupportedResourceTypes (pageRequest (length oks))])
   = S (length oks)) /\
  (svc (describeImagesInput getQualsValueByColumn iteration d) = inl err ->
   listAmisByOwner getCommonColumns getQualsValueByColumn (inr svc) iteration d w
   = (ApiError err,
      logs [EvDescribeImages (describeImagesInput getQualsValueByColumn iteration d)] w)) /\
  returned (ApiError err) = Some (VNil, Some err) /\
  (forall evs, commonColumnsCache (logs evs w) = commonColumnsCache w).
Proof.
  split; [|split; [|split]]; try done.
  - intros Hfuel Hwant. split; [|split].
    + by apply listAWSExplorerSupportedTypes_error.
    + rewrite rows_app, rows_walked. simpl. by rewrite app_nil_r.
    + rewrite fetches_app, fetches_walked. simpl. lia.
  - intros Herr. rewrite listAmisByOwner_call. cbn zeta. by rewrite Herr.
Qed.

(** C10.  When no client can be made for the region (a nil client with
    no error), the listing of supported resource types returns at once
    with [(nil, nil)]: no provider call, no row, the world untouched. *)
Theorem listAWSExplorerSupportedTypes_unsupported_region fuel w :
  listAWSExplorerSupportedTypes (inr None) fuel d w = (UnsupportedRegion, w) /\
  returned UnsupportedRegion = Some (VNil, None).
Proof. split; reflexivity. Qed.

End ListClaims.

(** ** The results on sample queries *)

Lemma rev_filterQuals_Permutation : rev filterQuals ≡ₚ filterQuals.
Proof. symmetry. apply Permutation_rev. Qed.


Lemma unlimited_wants_more n : unlimited n <> 0%Z.
Proof. discriminate. Qed.

(** C1, the paginated listing on pages of 50, 50 and 3. *)
Lemma listers_stream_every_row_witness :
  listAWSExplorerSupportedTypes
    (inr (Some (servePages (inr <$> explorerPages)))) 4 (queryOf ∅ ∅ unlimited) emptyWorld
  = (Done, logs (walked 0 explorerPages) emptyWorld) /\
  length (rows (walked 0 explorerPages)) = 103.
Proof.
  destruct (listers_stream_every_row (inr callerIdentity) qualsValueByColumn filterQuals
              (queryOf ∅ ∅ unlimited) (serveImages imagePages)
              {| ec2.Images := images 0 50; ec2.NextToken := cursor 1 |}
              explorerPages 4 emptyWorld)
    as [(Hrun & _ & _ & Hrows) _].
  - intros n. apply unlimited_wants_more.
  - discriminate.
  - simpl. lia.
  - reflexivity.
  - split; [exact Hrun|]. apply Hrows. reflexivity.
Defined.

(** C1: [listAmisByOwner] against a provider that has three pages of 50,
    50 and 3 images makes its one call and streams the 50 images of the
    answer, not 103. *)
Lemma listAmisByOwner_streams_one_response :
  length (concat imagePages) = 103 /\
  (forall n, plugin.RowsRemaining (queryOf ∅ ∅ unlimited) n <> 0%Z) /\
  (listAmisByOwner (inr callerIdentity) qualsValueByColumn (inr (serveImages imagePages))
     filterQuals (queryOf ∅ ∅ unlimited) emptyWorld).1 = Done /\
  length (rows (trace
    (listAmisByOwner (inr callerIdentity) qualsValueByColumn (inr (serveImages imagePages))
       filterQuals (queryOf ∅ ∅ unlimited) emptyWorld).2)) = 50 /\
  fetches (trace
    (listAmisByOwner (inr callerIdentity) qualsValueByColumn (inr (serveImages imagePages))
       filterQuals (queryOf ∅ ∅ unlimited) emptyWorld).2) = 1.
Proof.
  split; [reflexivity|]. split; [intros n; apply unlimited_wants_more|].
  split; [|split]; vm_compute; reflexivity.
Qed.


(** C3 on an image of the caller's own account. *)
Lemma getImageOwnerAlias_cases_witness :
  getCommonColumnsCached (inr callerIdentity) emptyWorld
  = (inr callerIdentity,
     {| trace := [EvGetCommonColumns]; commonColumnsCache := Some callerIdentity |}) /\
  getImageOwnerAlias (inr callerIdentity) ownImage emptyWorld
  = (Returns (VString "self", None),
     {| trace := [EvGetCommonColumns]; commonColumnsCache := Some callerIdentity |}).
Proof.
  split; [reflexivity|].
  destruct (getImageOwnerAlias_cases (inr callerIdentity) ownImage emptyWorld
              (inr callerIdentity)
              {| trace := [EvGetCommonColumns]; commonColumnsCache := Some callerIdentity |}
              eq_refl) as (Hself & _ & _).
  apply (Hself "111111111111"); reflexivity.
Defined.

(** C3: an image with the alias "amazon", when the identity cannot be
    resolved: the result is the error, not the alias. *)
Lemma getImageOwnerAlias_alias_without_identity :
  types.ImageOwnerAlias amazonImage = Some "amazon" /\
  getImageOwnerAlias (inl "AccessDenied") amazonImage emptyWorld
  = (Returns (VNil, Some "AccessDenied"), log EvGetCommonColumns emptyWorld) /\
  getImageOwnerAlias (inl "AccessDenied") amazonImage emptyWorld
  <> (Returns (VString "amazon", None), log EvGetCommonColumns emptyWorld).
Proof. split; [reflexivity|]. split; [reflexivity|discriminate]. Qed.

(** C8 on the table ranged over backwards. *)
Lemma buildAmisWithOwnerFilter_order_is_range_order_witness :
  rev filterQuals ≡ₚ filterQuals /\
  rangeFilterQuals qualsValueByColumn (rev filterQuals) qualsArchName []
  ≡ₚ rangeFilterQuals qualsValueByColumn filterQuals qualsArchName [].
Proof.
  split; [apply rev_filterQuals_Permutation|].
  apply (buildAmisWithOwnerFilter_order_is_range_order
           (inr callerIdentity) qualsValueByColumn (rev filterQuals)
           qualsArchName "SHARED_AMI" emptyWorld rev_filterQuals_Permutation).
Defined.

(** C8: two runs on the same predicate map, one ranging over the table as
    written and one ranging backwards, emit the two filters in opposite
    orders. *)
Lemma filters_follow_the_range_order :
  filterQuals ≡ₚ filterQuals /\ rev filterQuals ≡ₚ filterQuals /\
  buildAmisWithOwnerFilter (inr callerIdentity) qualsValueByColumn
    filterQuals qualsArchName "SHARED_AMI" emptyWorld
  = (Returns [{| types.Name := Some "architecture"; types.Values := ["x86_64"] |};
              {| types.Name := Some "name"; types.Values := ["al2023"] |}], emptyWorld) /\
  buildAmisWithOwnerFilter (inr callerIdentity) qualsValueByColumn
    (rev filterQuals) qualsArchName "SHARED_AMI" emptyWorld
  = (Returns [{| types.Name := Some "name"; types.Values := ["al2023"] |};
              {| types.Name := Some "architecture"; types.Values := ["x86_64"] |}],
     emptyWorld).
Proof.
  split; [reflexivity|]. split; [apply rev_filterQuals_Permutation|].
  split; vm_compute; reflexivity.
Qed.


(** C6 on the non-shared listing of [architecture = 'x86_64' and
    name = 'al2023'] when the identity cannot be resolved. *)
Lemma buildAmisWithOwnerFilter_identity_failure_witness :
  filterQuals ≡ₚ filterQuals /\
  "AMI" <> "SHARED_AMI" /\
  qualsArchName !! "owner_id" = None /\
  commonColumnsCache emptyWorld = None /\
  buildAmisWithOwnerFilter (inl "AccessDenied") qualsValueByColumn
    filterQuals qualsArchName "AMI" emptyWorld
  = (Returns (rangeFilterQuals qualsValueByColumn filterQuals qualsArchName []),
     log EvGetCommonColumns emptyWorld).
Proof.
  split; [reflexivity|]. split; [discriminate|]. split; [reflexivity|].
  split; [reflexivity|].
  apply (buildAmisWithOwnerFilter_identity_failure
           (inl "AccessDenied") qualsValueByColumn filterQuals qualsArchName
           "AMI" emptyWorld "AccessDenied");
    [reflexivity|discriminate|reflexivity|reflexivity|reflexivity].
Defined.

Lemma wants_ten_before n : 0 < n < 10 -> wants 10 n <> 0%Z.
Proof. unfold wants. lia. Qed.

(** C4 on a host that wants 10 rows, with pages of 50, 50 and 3. *)
Lemma listers_stop_after_tenth_row_witness :
  listAWSExplorerSupportedTypes
    (inr (Some (servePages (inr <$> explorerPages)))) 3 (queryOf ∅ ∅ (wants 10)) emptyWorld
  = (StoppedEarly, logs (walkedUntil 10 0 explorerPages) emptyWorld) /\
  length (rows (walkedUntil 10 0 explorerPages)) = 10 /\
  fetches (walkedUntil 10 0 explorerPages) = 1 /\
  listAmisByOwner (inr callerIdentity) qualsValueByColumn (inr (serveImages imagePages))
    filterQuals (queryOf ∅ ∅ (wants 10)) emptyWorld
  = (StoppedEarly,
     logs (EvDescribeImages
             (describeImagesInput qualsValueByColumn filterQuals (queryOf ∅ ∅ (wants 10)))
           :: emitted ItImage (firstn 10 (images 0 50))) emptyWorld).
Proof.
  destruct (listers_stop_after_tenth_row (inr callerIdentity) qualsValueByColumn
              filterQuals (queryOf ∅ ∅ (wants 10)) (serveImages imagePages)
              {| ec2.Images := images 0 50; ec2.NextToken := cursor 1 |}
              explorerPages 3 emptyWorld)
    as [Hpaged Hami].
  - reflexivity.
  - apply wants_ten_before.
  - reflexivity.
  - destruct Hpaged as (Hrun & _ & Hrows & Hfetches & _); [simpl; lia|simpl; lia|].
    destruct Hami as (Hrun' & _); [reflexivity|simpl; lia|].
    split; [exact Hrun|]. split; [exact Hrows|]. split; [exact Hfetches|exact Hrun'].
Defined.

(** C5 on [owner_id = '111111111111' and public = true]. *)
Lemma listAmisByOwner_explicit_owner_witness :
  plugin.d_KeyColumnQuals (ownerQuery unlimited) !! "owner_id"
  = Some (proto.StringValue "111111111111") /\
  exists x evs,
    listAmisByOwner (inr callerIdentity) qualsValueByColumn (inr (serveImages imagePages))
      filterQuals (ownerQuery unlimited) emptyWorld = (x, logs evs emptyWorld) /\
    identityCalls evs = 0 /\
    (forall input, EvDescribeImages input ∈ evs -> ec2.Owners input = ["111111111111"]).
Proof.
  split; [reflexivity|].
  destruct (listAmisByOwner_explicit_owner (inr callerIdentity) qualsValueByColumn
              filterQuals (ownerQuery unlimited) (inr (serveImages imagePages))
              "111111111111" emptyWorld eq_refl)
    as [(x & evs & Hrun & Hid & Howners & _) _].
  exists x, evs. split; [exact Hrun|]. split; [exact Hid|exact Howners].
Defined.

(** C5, the request itself: the owner of the call is the predicate's
    value, and the boolean predicate travels as a filter. *)
Example listAmisByOwner_request :
  describeImagesInput qualsValueByColumn filterQuals (ownerQuery unlimited)
  = {| ec2.Owners := ["111111111111"];
       ec2.Filters := [{| types.Name := Some "is-public"; types.Values := ["true"] |}] |}.
Proof. vm_compute. reflexivity. Qed.

(** C7 on a provider that serves one page of two rows and then fails. *)
Lemma listers_abort_on_fetch_error_witness :
  listAWSExplorerSupportedTypes
    (inr (Some (servePages ((inr <$> [resourceTypes 0 2]) ++ [inl "Throttling"]))))
    2 (queryOf ∅ ∅ unlimited) emptyWorld
  = (ApiError "Throttling",
     logs (walked 0 [resourceTypes 0 2]
           ++ [EvListSupportedResourceTypes (pageRequest 1)]) emptyWorld) /\
  listAmisByOwner (inr callerIdentity) qualsValueByColumn (inr (fun _ => inl "Throttling"))
    filterQuals (queryOf ∅ ∅ unlimited) emptyWorld
  = (ApiError "Throttling",
     logs [EvDescribeImages
             (describeImagesInput qualsValueByColumn filterQuals (queryOf ∅ ∅ unlimited))]
       emptyWorld).
Proof.
  destruct (listers_abort_on_fetch_error (inr callerIdentity) qualsValueByColumn
              filterQuals (queryOf ∅ ∅ unlimited) (fun _ => inl "Throttling")
              [resourceTypes 0 2] "Throttling" [] 2 emptyWorld)
    as (Hpaged & Hami & _).
  destruct Hpaged as (Hrun & _); [simpl; lia|intros n _; apply unlimited_wants_more|].
  split; [exact Hrun|]. apply Hami. reflexivity.
Defined.

(** The traces of the runs above, event by event. *)
Example paged_listing_trace :
  (listAWSExplorerSupportedTypes
     (inr (Some (servePages [inr (resourceTypes 0 1); inr (resourceTypes 1 1)])))
     3 (queryOf ∅ ∅ unlimited) emptyWorld)
  = (Done,
     {| trace :=
          [EvListSupportedResourceTypes (pageRequest 0);
           EvStreamListItem (ItResourceType
             {| types.ResourceType := Some "0"; types.Service := Some "ec2" |});
           EvRowsRemaining;
           EvListSupportedResourceTypes (pageRequest 1);
           EvStreamListItem (ItResourceType
             {| types.ResourceType := Some "1"; types.Service := Some "ec2" |});
           EvRowsRemaining];
        commonColumnsCache := None |}).
Proof. vm_compute. reflexivity. Qed.

Example paged_listing_out_of_fuel :
  (listAWSExplorerSupportedTypes
     (inr (Some (servePages [inr (resourceTypes 0 1); inr (resourceTypes 1 1)])))
     2 (queryOf ∅ ∅ unlimited) emptyWorld).1 = OutOfFuel.
Proof. vm_compute. reflexivity. Qed.

(** * Further properties *)

(** ** The loop over one response, whatever the host answers *)

Section RangeOutcome.

Context {A : Type} (item : A -> Item).
Variable d : plugin.QueryData.

(** The loop returns right after the first row at which the host answers
    0, and falls through when there is no such row in the response. *)
Lemma streamRange_outcome (items : list A) w :
  (streamRange item d items w = (false, logs (emitted item items) w) /\
   forall j, 1 <= j <= length items ->
             plugin.RowsRemaining d (length (rows (trace w)) + j) <> 0%Z) \/
  (exists n, n < length items /\
     streamRange item d items w = (true, logs (emitted item (firstn (S n) items)) w) /\
     plugin.RowsRemaining d (length (rows (trace w)) + S n) = 0%Z /\
     forall j, 1 <= j <= n ->
               plugin.RowsRemaining d (length (rows (trace w)) + j) <> 0%Z).
Proof.
  revert w. induction items as [|x items IH]; intros w.
  - left. split; [simpl; by rewrite logs_nil|]. simpl. lia.
  - rewrite streamRange_cons.
    destruct (Z.eqb_spec (plugin.RowsRemaining d (S (length (rows (trace w))))) 0)
      as [E|E].
    + right. exists 0. split; [simpl; lia|]. split; [reflexivity|].
      split; [by rewrite Nat.add_1_r|]. lia.
    + destruct (IH (logs [EvStreamListItem (item x); EvRowsRemaining] w))
        as [[Hrun Hwant]|(n & Hn & Hrun & Hstop & Hwant)];
        rewrite Hrun, logs_logs; rewrite rows_logs_pair in *.
      * left. split; [reflexivity|]. intros j Hj.
        destruct (decide (j = 1)) as [->|Hne]; [by rewrite Nat.add_1_r|].
        replace (length (rows (trace w)) + j)
          with (S (length (rows (trace w))) + (j - 1)) by lia.
        apply Hwant. simpl in Hj. lia.
      * right. exists (S n). split; [simpl; lia|]. split; [reflexivity|].
        split.
        -- by replace (length (rows (trace w)) + S (S n))
             with (S (length (rows (trace w))) + S n) by lia.
        -- intros j Hj.
           destruct (decide (j = 1)) as [->|Hne]; [by rewrite Nat.add_1_r|].
           replace (length (rows (trace w)) + j)
             with (S (length (rows (trace w))) + (j - 1)) by lia.
           apply Hwant. lia.
Qed.

End RangeOutcome.

(** ** [listAmisByOwner], every run *)

Lemma elem_of_present (quals : KeyColumnQualMap) entries c k :
  (c, k) ∈ present quals entries <-> (c, k) ∈ entries /\ is_Some (quals !! c).
Proof.
  unfold present. rewrite list_elem_of_filter. simpl. split; intros [? ?]; by split.
Qed.

Lemma filterQuals_not_owner_id c k : (c, k) ∈ filterQuals -> k <> "owner-id".
Proof.
  intros H. unfold filterQuals in H.
  repeat (apply elem_of_cons in H as [H|H]; [injection H as -> ->; discriminate|]).
  by apply elem_of_nil in H.
Qed.

Section AmiRuns.

Variable getCommonColumns : error + awsCommonColumnData.
Variable getQualsValueByColumn : KeyColumnQualMap -> string -> string -> GoValue.
Variable iteration : list (string * string).
Variable d : plugin.QueryData.

(** X1.  [listAmisByOwner] never panics and leaves through one of four
    returns, each of which tells what happened: a session error, with
    nothing sent; a provider error, after the one call; an early return,
    right after the first row at which the host answered 0; or the end of
    the response, every image streamed and the host never answering 0. *)
Theorem listAmisByOwner_exits client w :
  match listAmisByOwner getCommonColumns getQualsValueByColumn client iteration d w with
  | (ConnectionError err, w') => client = inl err /\ w' = w
  | (ApiError err, w') =>
      exists svc,
        client = inr svc /\
        svc (describeImagesInput getQualsValueByColumn iteration d) = inl err /\
        w' = logs [EvDescribeImages
                     (describeImagesInput getQualsValueByColumn iteration d)] w
  | (StoppedEarly, w') =>
      exists svc resp n,
        client = inr svc /\
        svc (describeImagesInput getQualsValueByColumn iteration d) = inr resp /\
        n < length (ec2.Images resp) /\
        w' = logs (EvDescribeImages
                     (describeImagesInput getQualsValueByColumn iteration d)
                   :: emitted ItImage (firstn (S n) (ec2.Images resp))) w /\
        plugin.RowsRemaining d (length (rows (trace w)) + S n) = 0%Z /\
        forall j, 1 <= j <= n ->
                  plugin.RowsRemaining d (length (rows (trace w)) + j) <> 0%Z
  | (Done, w') =>
      exists svc resp,
        client = inr svc /\
        svc (describeImagesInput getQualsValueByColumn iteration d) = inr resp /\
        w' = logs (EvDescribeImages
                     (describeImagesInput getQualsValueByColumn iteration d)
                   :: emitted ItImage (ec2.Images resp)) w /\
        forall j, 1 <= j <= length (ec2.Images resp) ->
                  plugin.RowsRemaining d (length (rows (trace w)) + j) <> 0%Z
  | (UnsupportedRegion, _) | (Panicked, _) | (OutOfFuel, _) => False
  end.
Proof.
  destruct client as [err|svc]; [done|].
  rewrite listAmisByOwner_call. cbn zeta.
  set (input := describeImagesInput getQualsValueByColumn iteration d).
  destruct (svc input) as [err|resp] eqn:Hsvc; [by exists svc|].
  destruct (streamRange_outcome ItImage d (ec2.Images resp)
              (logs [EvDescribeImages input] w))
    as [[Hrun Hwant]|(n & Hn & Hrun & Hstop & Hwant)];
    rewrite Hrun, logs_logs; rewrite rows_logs_call in *.
  - by exists svc, resp.
  - by exists svc, resp, n.
Qed.

(** Once the session is there the request is the first thing sent, and
    the only call. *)
Lemma listAmisByOwner_sends svc w :
  exists x rest,
    listAmisByOwner getCommonColumns getQualsValueByColumn (inr svc) iteration d w
    = (x, logs (EvDescribeImages (describeImagesInput getQualsValueByColumn iteration d)
                :: rest) w) /\
    fetches rest = 0 /\ identityCalls rest = 0.
Proof.
  rewrite listAmisByOwner_call. cbn zeta.
  set (input := describeImagesInput getQualsValueByColumn iteration d).
  destruct (svc input) as [err|resp]; [by exists (ApiError err), []|].
  destruct (streamRange_prefix ItImage d (ec2.Images resp)
              (logs [EvDescribeImages input] w)) as (stopped & n & ->).
  exists (if stopped then StoppedEarly else Done),
         (emitted ItImage (firstn n (ec2.Images resp))).
  split; [by destruct stopped; rewrite logs_logs|].
  by rewrite fetches_emitted, identityCalls_emitted.
Qed.

(** X2.  When the key column quals hold no string for owner_id (no entry,
    or a literal that is no string), [listAmisByOwner] does not refuse the
    query: it sends its request all the same, with the empty string as
    the one owner. *)
Theorem listAmisByOwner_missing_owner svc w :
  (forall s, plugin.d_KeyColumnQuals d !! "owner_id" <> Some (proto.StringValue s)) ->
  exists x input rest,
    listAmisByOwner getCommonColumns getQualsValueByColumn (inr svc) iteration d w
    = (x, logs (EvDescribeImages input :: rest) w) /\
    ec2.Owners input = [""] /\ fetches rest = 0.
Proof.
  intros Hnone. destruct (listAmisByOwner_sends svc w) as (x & rest & Hrun & Hf & _).
  exists x, (describeImagesInput getQualsValueByColumn iteration d), rest.
  split; [exact Hrun|]. split; [|exact Hf].
  unfold describeImagesInput. simpl.
  destruct (plugin.d_KeyColumnQuals d !! "owner_id") as [[s| | |]|] eqn:E;
    try reflexivity.
  by destruct (Hnone s).
Qed.

(** X3.  The filters of the request of [listAmisByOwner], for every
    query: their keys are the table's filter names of the columns that
    carry a predicate, each once, whatever the order of the range; none is
    keyed owner-id, though owner_id always carries a predicate; there are
    at most 16; and there is none exactly when no column of the table
    carries a predicate. *)
Theorem listAmisByOwner_request_filters svc w :
  iteration ≡ₚ filterQuals ->
  exists x input rest,
    listAmisByOwner getCommonColumns getQualsValueByColumn (inr svc) iteration d w
    = (x, logs (EvDescribeImages input :: rest) w) /\
    (types.Name <$> ec2.Filters input)
    ≡ₚ (Some <$> (present (plugin.d_Quals d) filterQuals).*2) /\
    NoDup (types.Name <$> ec2.Filters input) /\
    (Some "owner-id" ∉ (types.Name <$> ec2.Filters input)) /\
    length (ec2.Filters input) <= 16 /\
    (ec2.Filters input = [] <->
     forall c k, (c, k) ∈ filterQuals -> plugin.d_Quals d !! c = None).
Proof.
  intros Hperm. destruct (listAmisByOwner_sends svc w) as (x & rest & Hrun & _).
  exists x, (describeImagesInput getQualsValueByColumn iteration d), rest.
  split; [exact Hrun|]. unfold describeImagesInput. simpl.
  rewrite rangeFilterQuals_translated. simpl.
  set (quals := plugin.d_Quals d).
  assert (Hnames : ((types.Name <$> translated getQualsValueByColumn quals iteration)
                    ≡ₚ (Some <$> (present quals filterQuals).*2))).
  { rewrite translated_names. unfold present. by rewrite Hperm. }
  split; [exact Hnames|]. split; [|split; [|split]].
  - rewrite translated_names. apply NoDup_fmap_2; [intros ? ? [=]; done|].
    by apply present_names_NoDup.
  - rewrite Hnames. intros Hin.
    apply list_elem_of_fmap in Hin as (k & [= Hk] & Hin).
    apply list_elem_of_fmap in Hin as ([c k'] & Hk' & Hin). simpl in Hk'.
    apply elem_of_present in Hin as [Hin _].
    apply (filterQuals_not_owner_id c k' Hin). congruence.
  - rewrite <- (length_fmap types.Name), Hnames, !length_fmap.
    unfold present. etrans; [apply length_filter|]. reflexivity.
  - split.
    + intros Hnil c k Hin.
      destruct (quals !! c) as [kq|] eqn:E; [|done]. exfalso.
      assert (Hp : (c, k) ∈ present quals iteration).
      { apply elem_of_present. split; [by rewrite Hperm|]. by rewrite E. }
      unfold translated in Hnil. apply fmap_nil_inv in Hnil.
      rewrite Hnil in Hp. by apply elem_of_nil in Hp.
    + intros Hnone. unfold translated.
      replace (present quals iteration) with (@nil (string * string)); [done|].
      symmetry. apply elem_of_nil_inv. intros [c k] Hin.
      apply elem_of_present in Hin as [Hin [kq Hq]]. rewrite Hperm in Hin.
      rewrite (Hnone c k Hin) in Hq. done.
Qed.

End AmiRuns.

(** ** [buildAmisWithOwnerFilter], every call *)

Section TranslatorRuns.

Variable getCommonColumns : error + awsCommonColumnData.
Variable getQualsValueByColumn : KeyColumnQualMap -> string -> string -> GoValue.
Variable iteration : list (string * string).

(** X4.  [buildAmisWithOwnerFilter] panics in one case only: the listing
    is not the shared one, owner_id carries a predicate, and the value
    extracted for it is no string (the unchecked type assertion).  It
    panics before any identity call: the world is as it was. *)
Theorem buildAmisWithOwnerFilter_panics_iff (quals : KeyColumnQualMap) amiType w :
  ((buildAmisWithOwnerFilter getCommonColumns getQualsValueByColumn
      iteration quals amiType w).1 = Panics <->
   amiType <> "SHARED_AMI" /\ is_Some (quals !! "owner_id") /\
   forall s, getQualsValueByColumn quals "owner_id" "string" <> VString s) /\
  ((buildAmisWithOwnerFilter getCommonColumns getQualsValueByColumn
      iteration quals amiType w).1 = Panics ->
   (buildAmisWithOwnerFilter getCommonColumns getQualsValueByColumn
      iteration quals amiType w).2 = w).
Proof.
  unfold buildAmisWithOwnerFilter.
  destruct (String.eqb_spec amiType "SHARED_AMI") as [->|Hne]; simpl.
  - split; [|done]. split; [done|]. by intros [? _].
  - destruct (quals !! "owner_id") as [kq|] eqn:Hq.
    + assert (Hsome : is_Some (Some kq)) by (by eexists).
      destruct (getQualsValueByColumn quals "owner_id" "string") as [|s| | |] eqn:Hv;
        simpl; (split; [|done]); split;
        first [ by intros _; repeat split; try done; intros s0; discriminate
              | done
              | intros (_ & _ & H); by destruct (H s) ].
    + destruct (getCommonColumnsCached getCommonColumns w) as [[err|c] w'];
        simpl; (split; [|done]); split; try done.
      * intros (_ & [? ?] & _). done.
      * intros (_ & [? ?] & _). done.
Qed.

(** X5.  The owner scope of the non-shared listing without an owner
    predicate, when the identity resolves to [c]: the filter owner-id =
    [AccountId c] closes the list.  A cached identity costs no call; an
    empty cache costs exactly one call; and building again in the world
    that results gives the same filters with no further call. *)
Theorem buildAmisWithOwnerFilter_resolves_owner_once (quals : KeyColumnQualMap) amiType w c :
  amiType <> "SHARED_AMI" ->
  quals !! "owner_id" = None ->
  (getCommonColumnsCached getCommonColumns w).1 = inr c ->
  exists w',
    buildAmisWithOwnerFilter getCommonColumns getQualsValueByColumn
      iteration quals amiType w
    = (Returns (rangeFilterQuals getQualsValueByColumn iteration quals []
                ++ [{| types.Name := Some "owner-id";
                       types.Values := [AccountId c] |}]), w') /\
    (is_Some (commonColumnsCache w) -> w' = w) /\
    (commonColumnsCache w = None ->
     trace w' = trace w ++ [EvGetCommonColumns] /\ commonColumnsCache w' = Some c) /\
    buildAmisWithOwnerFilter getCommonColumns getQualsValueByColumn
      iteration quals amiType w'
    = (Returns (rangeFilterQuals getQualsValueByColumn iteration quals []
                ++ [{| types.Name := Some "owner-id";
                       types.Values := [AccountId c] |}]), w').
Proof.
  intros Hne Hown Hres.
  destruct (getCommonColumnsCached getCommonColumns w) as [r w'] eqn:Hc.
  simpl in Hres. subst r. exists w'.
  pose proof (getCommonColumnsCached_twice getCommonColumns w c w' Hc) as Hc'.
  assert (Hbuild : forall w0,
            getCommonColumnsCached getCommonColumns w0 = (inr c, w') ->
            buildAmisWithOwnerFilter getCommonColumns getQualsValueByColumn
              iteration quals amiType w0
            = (Returns (rangeFilterQuals getQualsValueByColumn iteration quals []
                        ++ [{| types.Name := Some "owner-id";
                               types.Values := [AccountId c] |}]), w')).
  { intros w0 H0. unfold buildAmisWithOwnerFilter. rewrite Hown, H0.
    by destruct (String.eqb_spec amiType "SHARED_AMI"). }
  split; [by apply Hbuild|]. split; [|split; [|by apply Hbuild]].
  - intros [c0 H0]. clear Hc' Hbuild. unfold getCommonColumnsCached in Hc.
    rewrite H0 in Hc. congruence.
  - intros H0. clear Hc' Hbuild. unfold getCommonColumnsCached in Hc.
    rewrite H0 in Hc. destruct getCommonColumns as [err|c1]; [done|].
    injection Hc as Hc1 Hc2. subst c1 w'. done.
Qed.

(** A helper that reads nothing but the column it is asked about. *)
Lemma rangeFilterQuals_other_column (quals : KeyColumnQualMap) c kq entries filters :
  (forall k, (c, k) ∉ entries) ->
  (forall c' dataType, c' <> c ->
     getQualsValueByColumn (<[c:=kq]> quals) c' dataType
     = getQualsValueByColumn quals c' dataType) ->
  rangeFilterQuals getQualsValueByColumn entries (<[c:=kq]> quals) filters
  = rangeFilterQuals getQualsValueByColumn entries quals filters.
Proof.
  intros Hout Hlocal. revert filters.
  induction entries as [|[c' k] entries IH]; intros filters; [done|].
  assert (Hne : c' <> c).
  { intros ->. apply (Hout k). left. }
  simpl. rewrite lookup_insert_ne by done.
  assert (Hf : columnFilter getQualsValueByColumn (<[c:=kq]> quals) c' k
               = columnFilter getQualsValueByColumn quals c' k).
  { unfold columnFilter. by rewrite !Hlocal. }
  rewrite Hf. assert (Hout' : forall k0, (c, k0) ∉ entries).
  { intros k0 H. apply (Hout k0). by right. }
  destruct (quals !! c'); by rewrite IH.
Qed.

(** X6.  A predicate on a column that is neither in the table nor
    owner_id changes nothing: with a helper that reads only the column it
    is asked about, the function returns the same filters and leaves the
    same world with or without it.  The column image_id is such a column:
    the table spells its key with a blank at the end. *)
Theorem buildAmisWithOwnerFilter_ignores_other_columns
    (quals : KeyColumnQualMap) c kq amiType w :
  iteration ≡ₚ filterQuals ->
  c ∉ filterQuals.*1 -> c <> "owner_id" ->
  (forall c' dataType, c' <> c ->
     getQualsValueByColumn (<[c:=kq]> quals) c' dataType
     = getQualsValueByColumn quals c' dataType) ->
  buildAmisWithOwnerFilter getCommonColumns getQualsValueByColumn
    iteration (<[c:=kq]> quals) amiType w
  = buildAmisWithOwnerFilter getCommonColumns getQualsValueByColumn
      iteration quals amiType w /\
  "image_id" ∉ filterQuals.*1.
Proof.
  intros Hperm Hout Hne Hlocal. split.
  - unfold buildAmisWithOwnerFilter.
    rewrite rangeFilterQuals_other_column; [|intros k Hin|done].
    + rewrite lookup_insert_ne by done. by rewrite Hlocal.
    + apply Hout. rewrite <- Hperm. by apply (list_elem_of_fmap_2 fst _ (c, k)).
  - apply (bool_decide_unpack _). vm_compute. exact I.
Qed.

End TranslatorRuns.

(** ** [getImageOwnerAlias], every call *)

Section EnricherRuns.

Variable getCommonColumns : error + awsCommonColumnData.

(** X7.  [getImageOwnerAlias] panics in one case only: the identity
    resolves and the image has neither alias nor owner id (the nil
    pointer is dereferenced).  With an alias or an owner id set it always
    returns. *)
Theorem getImageOwnerAlias_panics_iff image w :
  (getImageOwnerAlias getCommonColumns image w).1 = Panics <->
  (exists c, (getCommonColumnsCached getCommonColumns w).1 = inr c) /\
  types.ImageOwnerAlias image = None /\ types.OwnerId image = None.
Proof.
  unfold getImageOwnerAlias.
  destruct (getCommonColumnsCached getCommonColumns w) as [[err|c] w']; simpl.
  - split; [done|]. by intros [[c ?] _].
  - destruct (types.ImageOwnerAlias image) as [alias|]; simpl.
    + split; [done|]. by intros (_ & ? & _).
    + destruct (types.OwnerId image) as [o|]; simpl.
      * destruct (negb _); (split; [done|]); by intros (_ & _ & ?).
      * split; [|done]. intros _. split; [by exists c|done].
Qed.

(** X8.  Asking again gives the same answer for nothing: after a call
    that returned a value, the same call in the world that results
    returns the same value, makes no identity call and leaves that world
    as it is.  The first call made at most one identity call, and none
    when the identity was cached. *)
Theorem getImageOwnerAlias_again image w v w' :
  getImageOwnerAlias getCommonColumns image w = (Returns (v, None), w') ->
  getImageOwnerAlias getCommonColumns image w' = (Returns (v, None), w') /\
  identityCalls (trace w') <= S (identityCalls (trace w)) /\
  (is_Some (commonColumnsCache w) -> w' = w).
Proof.
  intros H. unfold getImageOwnerAlias in H.
  destruct (getCommonColumnsCached getCommonColumns w) as [[err|c] w1] eqn:Hc;
    [discriminate|].
  pose proof (getCommonColumnsCached_twice getCommonColumns w c w1 Hc) as Hc'.
  assert (Hw : identityCalls (trace w1) <= S (identityCalls (trace w)) /\
               (is_Some (commonColumnsCache w) -> w1 = w)).
  { clear Hc' H. unfold getCommonColumnsCached in Hc.
    destruct (commonColumnsCache w) as [c0|].
    - injection Hc as _ Hw. subst w1. split; [lia|done].
    - destruct getCommonColumns as [err|c1]; [discriminate Hc|].
      injection Hc as _ Hw. subst w1.
      simpl. rewrite identityCalls_app. simpl. split; [lia|]. by intros [? ?]. }
  assert (Hv : w' = w1 /\
               getImageOwnerAlias getCommonColumns image w1 = (Returns (v, None), w1)).
  { unfold getImageOwnerAlias. rewrite Hc'.
    destruct (types.ImageOwnerAlias image) as [alias|].
    - by injection H as <- <-.
    - destruct (types.OwnerId image) as [o|]; [|discriminate].
      destruct (negb _); by injection H as <- <-. }
  destruct Hv as [-> Hv]. by split.
Qed.

End EnricherRuns.

(** ** [listAWSExplorerSupportedTypes], every run *)

Section PagedRuns.

Variable d : plugin.QueryData.

Lemma pagedEvent_emitted items : Forall pagedEvent (emitted ItResourceType items).
Proof.
  induction items as [|x items IH]; [constructor|].
  rewrite emitted_cons. by repeat constructor.
Qed.

Lemma pagedEvent_no_identity evs : Forall pagedEvent evs -> identityCalls evs = 0.
Proof.
  induction 1 as [|e evs He _ IH]; [done|].
  destruct e as [| | |[|]|]; simpl in *; done.
Qed.

Lemma NextPage_keeps_options p :
  resourceexplorer2.Limit (resourceexplorer2.NextPage p).2 = resourceexplorer2.Limit p.
Proof.
  unfold resourceexplorer2.NextPage.
  by destruct (resourceexplorer2.client p (resourceexplorer2.request p)).
Qed.

Lemma request_asks_100 p :
  resourceexplorer2.Limit p = 100%Z ->
  resourceexplorer2.MaxResults (resourceexplorer2.request p) = Some 100%Z.
Proof. intros H. unfold resourceexplorer2.request. simpl. by rewrite H. Qed.

(** The loop against any provider, with any cursor that asks for 100. *)
Lemma pagesLoop_events fuel :
  forall p w,
    resourceexplorer2.Limit p = 100%Z ->
    exists x evs,
      pagesLoop fuel d p w = (x, logs evs w) /\
      Forall pagedEvent evs /\
      (x = Done \/ x = StoppedEarly \/ x = OutOfFuel \/ exists err, x = ApiError err) /\
      (evs = [] \/
       exists rest, evs = EvListSupportedResourceTypes (resourceexplorer2.request p) :: rest).
Proof.
  induction fuel as [|fuel IH]; intros p w Hlimit.
  - exists OutOfFuel, []. simpl. rewrite logs_nil.
    split; [done|]. split; [constructor|]. split; [auto|by left].
  - cbn [pagesLoop]. destruct (resourceexplorer2.HasMorePages p).
    2:{ exists Done, []. rewrite logs_nil.
        split; [done|]. split; [constructor|]. split; [auto|by left]. }
    pose proof (NextPage_keeps_options p) as Hkeep.
    destruct (resourceexplorer2.NextPage p) as [[err|output] p'].
    + exists (ApiError err), [EvListSupportedResourceTypes (resourceexplorer2.request p)].
      split; [reflexivity|]. split; [|split; [eauto 6|eauto]].
      constructor; [|constructor]. by apply request_asks_100.
    + rewrite log_logs.
      destruct (streamRange_prefix ItResourceType d
                  (resourceexplorer2.ResourceTypes output)
                  (logs [EvListSupportedResourceTypes (resourceexplorer2.request p)] w))
        as (stopped & n & ->).
      destruct stopped.
      * eexists StoppedEarly, _. rewrite logs_logs.
        split; [reflexivity|]. split; [|split; [auto|eauto]].
        constructor; [by apply request_asks_100|]. apply pagedEvent_emitted.
      * simpl in Hkeep. destruct (IH p' (logs (emitted ItResourceType
                       (take n (resourceexplorer2.ResourceTypes output)))
                       (logs [EvListSupportedResourceTypes
                                (resourceexplorer2.request p)] w)))
          as (x & evs & -> & Hevs & Hx & _); [congruence|].
        exists x, (EvListSupportedResourceTypes (resourceexplorer2.request p)
                   :: emitted ItResourceType
                        (take n (resourceexplorer2.ResourceTypes output)) ++ evs).
        rewrite !logs_logs. split; [reflexivity|].
        split; [|split; [exact Hx|eauto]].
        constructor; [by apply request_asks_100|].
        apply Forall_app. split; [apply pagedEvent_emitted|exact Hevs].
Qed.

(** X9.  Against any provider, with any session outcome, host and fuel,
    the paginated listing sends nothing but its own requests, each asking
    for at most 100 results and the first one without a token; it streams
    resource types only, makes no identity call, never panics, and leaves
    the identity cache as it was. *)
Theorem listAWSExplorerSupportedTypes_events client fuel w :
  exists x evs,
    listAWSExplorerSupportedTypes client fuel d w = (x, logs evs w) /\
    Forall pagedEvent evs /\
    identityCalls evs = 0 /\
    x <> Panicked /\
    (forall e rest, evs = e :: rest ->
       e = EvListSupportedResourceTypes
             {| resourceexplorer2.MaxResults := Some 100%Z;
                resourceexplorer2.NextToken := None |}).
Proof.
  destruct client as [err|[svc|]].
  - exists (ConnectionError err), []. rewrite logs_nil. by repeat split.
  - unfold listAWSExplorerSupportedTypes.
    destruct (pagesLoop_events fuel
                (resourceexplorer2.NewListSupportedResourceTypesPaginator svc 100%Z true) w)
      as (x & evs & Hrun & Hevs & Hx & Hhead); [done|].
    exists x, evs. split; [exact Hrun|]. split; [exact Hevs|].
    split; [by apply pagedEvent_no_identity|]. split.
    + destruct Hx as [->|[->|[->|[err ->]]]]; done.
    + intros e rest ->. destruct Hhead as [?|[rest' [= -> _]]]; done.
  - exists UnsupportedRegion, []. rewrite logs_nil. by repeat split.
Qed.

(** X10.  The listing reads the query through [RowsRemaining] alone: two
    queries whose hosts answer alike, whatever their predicates, make it
    run the same. *)
Theorem listAWSExplorerSupportedTypes_ignores_quals client fuel d' w :
  (forall n, plugin.RowsRemaining d n = plugin.RowsRemaining d' n) ->
  listAWSExplorerSupportedTypes client fuel d w
  = listAWSExplorerSupportedTypes client fuel d' w.
Proof.
  intros Hsame.
  assert (Hrange : forall items w0,
            streamRange ItResourceType d items w0
            = streamRange ItResourceType d' items w0).
  { induction items as [|x items IH]; intros w0; [done|].
    rewrite !streamRange_cons, Hsame. by rewrite IH. }
  destruct client as [err|[svc|]]; try done.
  unfold listAWSExplorerSupportedTypes.
  generalize (resourceexplorer2.NewListSupportedResourceTypesPaginator svc 100%Z true).
  revert w. induction fuel as [|fuel IH]; intros w p; [done|].
  cbn [pagesLoop]. destruct (resourceexplorer2.HasMorePages p); [|done].
  destruct (resourceexplorer2.NextPage p) as [[err|output] p']; [done|].
  rewrite Hrange.
  destruct (streamRange ItResourceType d' _ _) as [[|] w2]; [done|apply IH].
Qed.

End PagedRuns.

(** ** [listAWSExplorerSupportedTypes] over a paged provider, any host *)

Section PagedProviderRuns.

Variable d : plugin.QueryData.
Variable script : list (error + list types.SupportedResourceType).

(** What each way out of the loop tells about the run, from page [i] on:
    [rest] is what the provider has from that page on. *)
Lemma pagesLoop_run rest :
  forall i w fuel,
    drop i script = rest -> rest <> [] ->
    exists x evs,
      pagesLoop fuel d (paginatorAt (servePages script) i) w = (x, logs evs w) /\
      match x with
      | Done =>
          rows evs = ItResourceType <$> concat (leading rest) /\
          length (leading rest) = length rest /\
          fetches evs = length rest
      | ApiError err =>
          rows evs = ItResourceType <$> concat (leading rest) /\
          rest !! length (leading rest) = Some (inl err) /\
          fetches evs = S (length (leading rest))
      | StoppedEarly =>
          (exists later, ItResourceType <$> concat (leading rest) = rows evs ++ later) /\
          rows evs <> [] /\
          plugin.RowsRemaining d (length (rows (trace w)) + length (rows evs)) = 0%Z /\
          fetches evs <= length (leading rest)
      | OutOfFuel =>
          (exists later, ItResourceType <$> concat (leading rest) = rows evs ++ later) /\
          fuel <= length rest
      | _ => False
      end.
Proof.
  induction rest as [|r rest IH]; intros i w fuel Hdrop Hne; [done|].
  apply drop_cons_inv in Hdrop as (Hi & Hdrop & Hlen).
  destruct fuel as [|fuel].
  { exists OutOfFuel, []. rewrite logs_nil. split; [done|].
    split; [by eexists|simpl; lia]. }
  destruct r as [err|p].
  { exists (ApiError err), [EvListSupportedResourceTypes (pageRequest i)].
    split; [by apply pagesLoop_error|]. by repeat split. }
  rewrite (pagesLoop_page script d i p fuel w Hi).
  set (w1 := logs [EvListSupportedResourceTypes (pageRequest i)] w).
  assert (Hr1 : length (rows (trace w1)) = length (rows (trace w)))
    by (unfold w1; by rewrite rows_logs_fetch).
  cbn [leading concat].
  destruct (streamRange_outcome ItResourceType d p w1)
    as [[Hrun _]|(n & Hn & Hrun & Hstop & _)]; rewrite Hrun.
  2:{ exists StoppedEarly,
             (EvListSupportedResourceTypes (pageRequest i)
              :: emitted ItResourceType (take (S n) p)).
      unfold w1. rewrite logs_logs. split; [reflexivity|].
      cbn [rows fetches]. rewrite rows_emitted, fetches_emitted.
      split; [|split; [|split]].
      - exists (ItResourceType <$> (drop (S n) p ++ concat (leading rest))).
        rewrite <- fmap_app, app_assoc. by rewrite take_drop.
      - destruct p; [simpl in Hn; lia|done].
      - rewrite length_fmap, length_take, Nat.min_l by lia.
        by rewrite <- Hr1.
      - simpl. lia. }
  destruct rest as [|r' rest'].
  - replace (S i <? length script) with false
      by (symmetry; apply Nat.ltb_ge; simpl in Hlen; lia).
    destruct fuel as [|fuel].
    + exists OutOfFuel,
             (EvListSupportedResourceTypes (pageRequest i) :: emitted ItResourceType p).
      unfold w1. rewrite logs_logs. split; [reflexivity|].
      cbn [rows]. rewrite rows_emitted. split; [|simpl; lia].
      exists []. simpl. by rewrite !app_nil_r.
    + rewrite pagesLoop_end.
      exists Done,
             (EvListSupportedResourceTypes (pageRequest i) :: emitted ItResourceType p).
      unfold w1. rewrite logs_logs. split; [reflexivity|].
      cbn [rows fetches]. rewrite rows_emitted, fetches_emitted.
      simpl. by rewrite !app_nil_r.
  - replace (S i <? length script) with true
      by (symmetry; apply Nat.ltb_lt; simpl in Hlen; lia).
    destruct (IH (S i) (logs (emitted ItResourceType p) w1) fuel Hdrop)
      as (x & evs & -> & Hx); [done|].
    exists x, (EvListSupportedResourceTypes (pageRequest i)
               :: emitted ItResourceType p ++ evs).
    unfold w1. rewrite !logs_logs. split; [reflexivity|].
    assert (Hrows : rows (EvListSupportedResourceTypes (pageRequest i)
                          :: emitted ItResourceType p ++ evs)
                    = (ItResourceType <$> p) ++ rows evs).
    { cbn [rows]. by rewrite rows_app, rows_emitted. }
    assert (Hfetches : fetches (EvListSupportedResourceTypes (pageRequest i)
                                :: emitted ItResourceType p ++ evs)
                       = S (fetches evs)).
    { cbn [fetches]. by rewrite fetches_app, fetches_emitted. }
    rewrite Hrows, Hfetches. rewrite rows_logs_emitted, Hr1 in Hx.
    set (rest := r' :: rest') in *.
    destruct x; try done.
    + destruct Hx as (Hall & Hat & Hf).
      split; [by rewrite fmap_app, Hall|]. split; [exact Hat|cbn [length]; lia].
    + destruct Hx as ([later Hlater] & Hsome & Hzero & Hf).
      split; [|split; [|split]].
      * exists later. by rewrite fmap_app, Hlater, app_assoc.
      * intros H. apply app_eq_nil in H as [_ H]. done.
      * rewrite length_app, length_fmap, Nat.add_assoc. exact Hzero.
      * cbn [length]. lia.
    + destruct Hx as (Hall & Hlead & Hf).
      split; [by rewrite fmap_app, Hall|]. cbn [length]. lia.
    + destruct Hx as ([later Hlater] & Hfuel).
      split; [|cbn [length]; lia].
      exists later. by rewrite fmap_app, Hlater, app_assoc.
Qed.

(** X11.  Against a provider that answers from a list of pages, whatever
    the host answers, each way out of the paginated listing tells what was
    streamed.  [Done]: no call failed, every page was fetched once and
    every item streamed, in order.  An API error: it is the error of the
    first failing call, every item of the pages before it was streamed,
    and no call followed.  An early return: the rows streamed are a
    non-empty prefix of those items, and the host answered 0 right after
    the last of them.  Rows are never reordered, repeated or invented. *)
Theorem listAWSExplorerSupportedTypes_exits fuel w :
  script <> [] ->
  exists x evs,
    listAWSExplorerSupportedTypes (inr (Some (servePages script))) fuel d w
    = (x, logs evs w) /\
    match x with
    | Done =>
        rows evs = ItResourceType <$> concat (leading script) /\
        length (leading script) = length script /\
        fetches evs = length script
    | ApiError err =>
        rows evs = ItResourceType <$> concat (leading script) /\
        script !! length (leading script) = Some (inl err) /\
        fetches evs = S (length (leading script))
    | StoppedEarly =>
        (exists later, ItResourceType <$> concat (leading script) = rows evs ++ later) /\
        rows evs <> [] /\
        plugin.RowsRemaining d (length (rows (trace w)) + length (rows evs)) = 0%Z /\
        fetches evs <= length (leading script)
    | OutOfFuel =>
        (exists later, ItResourceType <$> concat (leading script) = rows evs ++ later) /\
        fuel <= length script
    | _ => False
    end.
Proof.
  intros Hne. rewrite listAWSExplorerSupportedTypes_loop.
  apply (pagesLoop_run script 0 w fuel); [apply drop_0|done].
Qed.

(** X12.  The paginated listing returns to its caller: against a provider
    that answers from a list of pages, with more fuel than there are
    pages, it ends with a Go result, whatever the host answers and
    whether calls fail or not, after at most one call per page. *)
Theorem listAWSExplorerSupportedTypes_returns fuel w :
  script <> [] -> length script < fuel ->
  exists x evs result,
    listAWSExplorerSupportedTypes (inr (Some (servePages script))) fuel d w
    = (x, logs evs w) /\
    returned x = Some result /\
    fetches evs <= length script.
Proof.
  intros Hne Hfuel.
  destruct (pagesLoop_run script 0 w fuel) as (x & evs & Hrun & Hx);
    [apply drop_0|done|].
  rewrite listAWSExplorerSupportedTypes_loop, Hrun.
  assert (Hlead : length (leading script) <= length script).
  { clear. induction script as [|[err|p] s IH]; simpl; lia. }
  destruct x; try done.
  - exists (ApiError err), evs, (VNil, Some err). split; [done|]. split; [done|].
    destruct Hx as (_ & Hat & ->). apply lookup_lt_Some in Hat. lia.
  - exists StoppedEarly, evs, (VNil, None). split; [done|]. split; [done|].
    destruct Hx as (_ & _ & _ & Hf). lia.
  - exists Done, evs, (VNil, None). split; [done|]. split; [done|].
    destruct Hx as (_ & _ & ->). done.
  - destruct Hx as [_ Hx]. lia.
Qed.

End PagedProviderRuns.

(** ** Tokens, limits and empty responses *)

Section PagedEdges.

Variable d : plugin.QueryData.

Lemma pagesLoop_turn fuel p w :
  pagesLoop (S fuel) d p w
  = if resourceexplorer2.HasMorePages p then
      match resourceexplorer2.NextPage p with
      | (inl err, _) =>
          (ApiError err,
           logs [EvListSupportedResourceTypes (resourceexplorer2.request p)] w)
      | (inr output, p') =>
          let '(stopped, w2) :=
            streamRange ItResourceType d (resourceexplorer2.ResourceTypes output)
              (logs [EvListSupportedResourceTypes (resourceexplorer2.request p)] w) in
          if stopped then (StoppedEarly, w2) else pagesLoop fuel d p' w2
      end
    else (Done, w).
Proof.
  cbn [pagesLoop]. destruct (resourceexplorer2.HasMorePages p); [|done].
  by destruct (resourceexplorer2.NextPage p) as [[err|output] p'].
Qed.

(** X13.  The paginator is told to stop on a repeated token.  Against a
    provider that answers every call with the same page and the same
    non-empty token, a host that wants every row gets the page twice,
    after two calls, and the listing ends in [Done] instead of asking for
    ever; with the empty string for a token, one call is made. *)
Theorem listAWSExplorerSupportedTypes_repeated_token page tok fuel w :
  (forall n, length (rows (trace w)) < n <= length (rows (trace w)) + 2 * length page ->
             plugin.RowsRemaining d n <> 0%Z) ->
  3 <= fuel ->
  (tok <> "" ->
   listAWSExplorerSupportedTypes (inr (Some (serveSame page tok))) fuel d w
   = (Done,
      logs (EvListSupportedResourceTypes
              {| resourceexplorer2.MaxResults := Some 100%Z;
                 resourceexplorer2.NextToken := None |}
            :: emitted ItResourceType page
            ++ EvListSupportedResourceTypes
                 {| resourceexplorer2.MaxResults := Some 100%Z;
                    resourceexplorer2.NextToken := Some tok |}
            :: emitted ItResourceType page) w)) /\
  (tok = "" ->
   listAWSExplorerSupportedTypes (inr (Some (serveSame page tok))) fuel d w
   = (Done,
      logs (EvListSupportedResourceTypes
              {| resourceexplorer2.MaxResults := Some 100%Z;
                 resourceexplorer2.NextToken := None |}
            :: emitted ItResourceType page) w)).
Proof.
  intros Hwant Hfuel.
  destruct fuel as [|[|[|fuel]]]; try lia.
  unfold listAWSExplorerSupportedTypes,
    resourceexplorer2.NewListSupportedResourceTypesPaginator.
  set (p1 := {| resourceexplorer2.client := serveSame page tok;
                resourceexplorer2.Limit := 100%Z;
                resourceexplorer2.StopOnDuplicateToken := true;
                resourceexplorer2.firstPage := false;
                resourceexplorer2.nextToken := Some tok |}).
  set (p2 := {| resourceexplorer2.client := serveSame page tok;
                resourceexplorer2.Limit := 100%Z;
                resourceexplorer2.StopOnDuplicateToken := true;
                resourceexplorer2.firstPage := false;
                resourceexplorer2.nextToken := None |}).
  rewrite pagesLoop_turn.
  change (resourceexplorer2.HasMorePages _) with true.
  change (resourceexplorer2.NextPage _)
    with (@inr error _ {| resourceexplorer2.NextToken_out := Some tok;
                          resourceexplorer2.ResourceTypes := page |}, p1).
  cbn [resourceexplorer2.ResourceTypes resourceexplorer2.request
       resourceexplorer2.Limit resourceexplorer2.nextToken Z.ltb Z.compare].
  rewrite streamRange_all
    by (intros n Hn; simpl in Hn; rewrite rows_app in Hn; simpl in Hn;
        rewrite app_nil_r in Hn; apply Hwant; lia).
  rewrite logs_logs, pagesLoop_turn.
  assert (Hmore : resourceexplorer2.HasMorePages p1 = negb (tok =? "")%string)
    by reflexivity.
  rewrite Hmore. split.
  - intros Hne. apply String.eqb_neq in Hne. rewrite Hne. cbn [negb].
    assert (Hnext : resourceexplorer2.NextPage p1
                    = (@inr error _ {| resourceexplorer2.NextToken_out := Some tok;
                                       resourceexplorer2.ResourceTypes := page |}, p2)).
    { unfold resourceexplorer2.NextPage. simpl. by rewrite String.eqb_refl. }
    rewrite Hnext.
    cbn [resourceexplorer2.ResourceTypes resourceexplorer2.request p1
         resourceexplorer2.Limit resourceexplorer2.nextToken Z.ltb Z.compare].
    rewrite streamRange_all.
    + rewrite logs_logs, pagesLoop_turn.
      change (resourceexplorer2.HasMorePages p2) with false. cbn iota.
      rewrite logs_logs. reflexivity.
    + intros n Hn. unfold logs in Hn. cbn [trace] in Hn.
      rewrite !rows_app in Hn. cbn [rows] in Hn.
      rewrite rows_emitted, app_nil_r, length_app in Hn. cbn [app] in Hn.
      rewrite length_fmap in Hn.
      apply Hwant. lia.
  - intros ->. reflexivity.
Qed.

Lemma checks_app t1 t2 : checks (t1 ++ t2) = checks t1 + checks t2.
Proof.
  induction t1 as [|e t1 IH]; [done|].
  destruct e; simpl; by rewrite ?IH.
Qed.

Lemma checks_emitted {A} (item : A -> Item) items :
  checks (emitted item items) = length items.
Proof. induction items as [|x items IH]; [done|]. simpl. by rewrite IH. Qed.

Lemma checks_walkedUntil k i pages :
  checks (walkedUntil k i pages) = Nat.min k (length (concat pages)).
Proof.
  revert k i. induction pages as [|p pages IH]; intros k i.
  - simpl. lia.
  - cbn [walkedUntil checks concat]. rewrite length_app.
    destruct (Nat.leb_spec k (length p)) as [Hle|Hgt].
    + rewrite checks_emitted, length_take. lia.
    + rewrite checks_app, checks_emitted, IH. lia.
Qed.

(** X14.  The paginated listing returns at the first row after which the
    host answers 0, whichever row [k] that is, also the very next one:
    it has streamed the rows up to [k], [k] included, and fetched the
    pages up to the one that holds row [k], none after it. *)
Theorem listAWSExplorerSupportedTypes_stops_at_first_zero pages fuel w k :
  length (rows (trace w)) < k <= length (rows (trace w)) + length (concat pages) ->
  (forall n, length (rows (trace w)) < n < k -> plugin.RowsRemaining d n <> 0%Z) ->
  plugin.RowsRemaining d k = 0%Z ->
  length pages <= fuel ->
  exists evs,
    listAWSExplorerSupportedTypes (inr (Some (servePages (inr <$> pages)))) fuel d w
    = (StoppedEarly, logs evs w) /\
    rows evs = ItResourceType <$> firstn (k - length (rows (trace w))) (concat pages) /\
    length (rows evs) = k - length (rows (trace w)) /\
    checks evs = length (rows evs) /\
    fetches evs = pagesHolding (k - length (rows (trace w))) pages /\
    length (concat (firstn (fetches evs - 1) pages)) < k - length (rows (trace w)) /\
    k - length (rows (trace w)) <= length (concat (firstn (fetches evs) pages)).
Proof.
  intros Hk Hwant Hstop Hfuel.
  exists (walkedUntil (k - length (rows (trace w))) 0 pages).
  split; [by apply listAWSExplorerSupportedTypes_stop|].
  rewrite checks_walkedUntil, rows_walkedUntil, fetches_walkedUntil, length_fmap,
    length_take.
  destruct (pagesHolding_spec (k - length (rows (trace w))) pages)
    as (_ & Hbefore & Hupto); [lia|].
  split; [done|]. split; [lia|]. by split.
Qed.

End PagedEdges.

(** ** Empty responses, and the key columns of the table *)

Section EmptyAndSchema.

Variable getCommonColumns : error + awsCommonColumnData.
Variable getQualsValueByColumn : KeyColumnQualMap -> string -> string -> GoValue.
Variable iteration : list (string * string).
Variable d : plugin.QueryData.

Lemma checks_walked i pages : checks (walked i pages) = length (concat pages).
Proof.
  revert i. induction pages as [|p pages IH]; intros i; [done|].
  cbn [walked checks concat]. by rewrite checks_app, checks_emitted, IH, length_app.
Qed.

Lemma concat_all_empty {A} (pages : list (list A)) :
  Forall (fun p => p = []) pages -> concat pages = [].
Proof. induction 1 as [|p pages -> _ IH]; [done|]. by simpl. Qed.

(** X15.  The host is asked only after a row.  Pages without items are
    fetched through to the last whatever the host would answer, also one
    that answers 0 from the start: the listing ends in [Done] with no row
    and no check, one call per page.  An empty response of
    [DescribeImages] likewise ends in [Done] after the one call. *)
Theorem listers_empty_responses svc resp pages fuel w :
  (pages <> [] -> Forall (fun p => p = []) pages -> length pages < fuel ->
   listAWSExplorerSupportedTypes (inr (Some (servePages (inr <$> pages)))) fuel d w
   = (Done, logs (walked 0 pages) w) /\
   rows (walked 0 pages) = [] /\
   checks (walked 0 pages) = 0 /\
   fetches (walked 0 pages) = length pages) /\
  (svc (describeImagesInput getQualsValueByColumn iteration d) = inr resp ->
   ec2.Images resp = [] ->
   listAmisByOwner getCommonColumns getQualsValueByColumn (inr svc) iteration d w
   = (Done,
      logs [EvDescribeImages (describeImagesInput getQualsValueByColumn iteration d)] w)).
Proof.
  split.
  - intros Hne Hempty Hfuel. pose proof (concat_all_empty pages Hempty) as Hnil.
    split; [|split; [|split]].
    + apply listAWSExplorerSupportedTypes_done; [done|done|].
      intros n Hn. rewrite Hnil in Hn. simpl in Hn. lia.
    + by rewrite rows_walked, Hnil.
    + by rewrite checks_walked, Hnil.
    + apply fetches_walked.
  - intros Hresp Hnil. rewrite listAmisByOwner_call. cbn zeta.
    by rewrite Hresp, Hnil.
Qed.

(** Every optional key column of the list config has its entry in
    [filterQuals], and is declared BOOL exactly when the translator takes
    it for a boolean column. *)
Lemma optional_key_columns kc :
  kc ∈ table.ListKeyColumns tableAwsEc2AmiShared ->
  table.Require_ kc = table.Optional ->
  exists k,
    (table.Name kc, k) ∈ filterQuals /\
    ((columnType tableAwsEc2AmiShared (table.Name kc) = Some table.ColumnType_BOOL /\
      table.Name kc ∈ columnsBool) \/
     (columnType tableAwsEc2AmiShared (table.Name kc) = Some table.ColumnType_STRING /\
      table.Name kc ∉ columnsBool)).
Proof.
  intros Hkc Hopt. unfold tableAwsEc2AmiShared in Hkc. cbn [table.ListKeyColumns] in Hkc.
  repeat (apply elem_of_cons in Hkc as [->|Hkc];
          [first [ discriminate Hopt
                 | cbn [table.Name]; eexists; split;
                   [ unfold filterQuals;
                     solve [repeat first [apply list_elem_of_here
                                         | apply list_elem_of_further]]
                   | first [ left; split; [reflexivity|];
                             apply (bool_decide_unpack _); vm_compute; exact I
                           | right; split; [reflexivity|];
                             apply (bool_decide_unpack _); vm_compute; exact I ] ] ]|]).
  by apply elem_of_nil in Hkc.
Qed.

(** X16.  Every optional key column of the list config of
    aws_ec2_ami_shared is pushed down.  When such a column carries a
    predicate, the request of [listAmisByOwner] holds exactly one filter
    for it, keyed by its entry in [filterQuals]; a column declared BOOL
    travels as the formatted extracted value, a column declared STRING as
    the extracted string; and no key column has another type. *)
Theorem listAmisByOwner_pushes_down_key_columns svc w kc :
  iteration ≡ₚ filterQuals ->
  kc ∈ table.ListKeyColumns tableAwsEc2AmiShared ->
  table.Require_ kc = table.Optional ->
  is_Some (plugin.d_Quals d !! table.Name kc) ->
  exists x input rest k before f after,
    listAmisByOwner getCommonColumns getQualsValueByColumn (inr svc) iteration d w
    = (x, logs (EvDescribeImages input :: rest) w) /\
    (table.Name kc, k) ∈ filterQuals /\
    ec2.Filters input = before ++ f :: after /\
    types.Name f = Some k /\
    (forall g, g ∈ before ++ after -> types.Name g <> Some k) /\
    (columnType tableAwsEc2AmiShared (table.Name kc) = Some table.ColumnType_BOOL ->
     types.Values f
     = [fmt_Sprint (getQualsValueByColumn (plugin.d_Quals d) (table.Name kc) "boolean")]) /\
    (columnType tableAwsEc2AmiShared (table.Name kc) = Some table.ColumnType_STRING ->
     forall s,
       getQualsValueByColumn (plugin.d_Quals d) (table.Name kc) "string" = VString s ->
       types.Values f = [s]) /\
    (columnType tableAwsEc2AmiShared (table.Name kc) = Some table.ColumnType_BOOL \/
     columnType tableAwsEc2AmiShared (table.Name kc) = Some table.ColumnType_STRING).
Proof.
  intros Hperm Hkc Hopt Hq.
  destruct (optional_key_columns kc Hkc Hopt) as (k & Hin & Htype).
  destruct (listAmisByOwner_sends getCommonColumns getQualsValueByColumn iteration d svc w)
    as (x & rest & Hrun & _).
  destruct (translated_exactly_one getCommonColumns getQualsValueByColumn iteration
              (plugin.d_Quals d) (table.Name kc) k Hperm Hin Hq)
    as (before & after & Hsplit & Hothers).
  exists x, (describeImagesInput getQualsValueByColumn iteration d), rest, k, before,
         (columnFilter getQualsValueByColumn (plugin.d_Quals d) (table.Name kc) k), after.
  split; [exact Hrun|]. split; [exact Hin|]. split.
  { unfold describeImagesInput. cbn [ec2.Filters].
    by rewrite rangeFilterQuals_translated. }
  split; [apply columnFilter_Name|]. split; [exact Hothers|].
  destruct Htype as [[Ht Hb]|[Ht Hb]]; rewrite Ht.
  - split; [|split; [discriminate|by left]].
    intros _. by rewrite (columnFilter_boolean _ _ _ k Hin Hb).
  - split; [discriminate|split; [|by right]].
    intros _ s Hs. by rewrite (columnFilter_string _ _ _ k s Hin Hb Hs).
Qed.

End EmptyAndSchema.

(** ** The further properties on sample queries *)

Lemma qualsValueByColumn_local (quals : KeyColumnQualMap) c kq c' dataType :
  c' <> c ->
  qualsValueByColumn (<[c:=kq]> quals) c' dataType = qualsValueByColumn quals c' dataType.
Proof. intros Hne. unfold qualsValueByColumn. by rewrite lookup_insert_ne. Qed.

Lemma image_id_not_in_table : "image_id" ∉ filterQuals.*1.
Proof. apply (bool_decide_unpack _). vm_compute. exact I. Qed.

(** X2 on a query without owner_id among its key column quals. *)
Lemma listAmisByOwner_missing_owner_witness :
  (forall s, plugin.d_KeyColumnQuals (queryOf ∅ qualsArchName unlimited) !! "owner_id"
             <> Some (proto.StringValue s)) /\
  exists x input rest,
    listAmisByOwner (inr callerIdentity) qualsValueByColumn (inr (serveImages imagePages))
      filterQuals (queryOf ∅ qualsArchName unlimited) emptyWorld
    = (x, logs (EvDescribeImages input :: rest) emptyWorld) /\
    ec2.Owners input = [""] /\ fetches rest = 0.
Proof.
  assert (H : forall s,
            plugin.d_KeyColumnQuals (queryOf ∅ qualsArchName unlimited) !! "owner_id"
            <> Some (proto.StringValue s)) by (intros s; discriminate).
  split; [exact H|].
  apply (listAmisByOwner_missing_owner (inr callerIdentity) qualsValueByColumn
           filterQuals (queryOf ∅ qualsArchName unlimited) (serveImages imagePages)
           emptyWorld H).
Defined.

(** X3 on [owner_id = '111111111111' and public = true], ranging
    backwards. *)
Lemma listAmisByOwner_request_filters_witness :
  rev filterQuals ≡ₚ filterQuals /\
  exists x input rest,
    listAmisByOwner (inr callerIdentity) qualsValueByColumn (inr (serveImages imagePages))
      (rev filterQuals) (ownerQuery unlimited) emptyWorld
    = (x, logs (EvDescribeImages input :: rest) emptyWorld) /\
    (Some "owner-id" ∉ (types.Name <$> ec2.Filters input)) /\
    length (ec2.Filters input) <= 16.
Proof.
  split; [apply rev_filterQuals_Permutation|].
  destruct (listAmisByOwner_request_filters (inr callerIdentity) qualsValueByColumn
              (rev filterQuals) (ownerQuery unlimited) (serveImages imagePages)
              emptyWorld rev_filterQuals_Permutation)
    as (x & input & rest & Hrun & _ & _ & Hown & Hlen & _).
  by exists x, input, rest.
Defined.

(** X4 on the non-shared listing of [owner_id = 42]. *)
Lemma buildAmisWithOwnerFilter_panics_iff_witness :
  "AMI" <> "SHARED_AMI" /\
  is_Some (qualsOwnerNumber !! "owner_id") /\
  (forall s, qualsValueByColumn qualsOwnerNumber "owner_id" "string" <> VString s) /\
  (buildAmisWithOwnerFilter (inr callerIdentity) qualsValueByColumn
     filterQuals qualsOwnerNumber "AMI" emptyWorld).1 = Panics.
Proof.
  assert (H1 : "AMI" <> "SHARED_AMI") by discriminate.
  assert (H2 : is_Some (qualsOwnerNumber !! "owner_id")) by (by eexists).
  assert (H3 : forall s,
            qualsValueByColumn qualsOwnerNumber "owner_id" "string" <> VString s)
    by (intros s; discriminate).
  split; [exact H1|]. split; [exact H2|]. split; [exact H3|].
  apply (buildAmisWithOwnerFilter_panics_iff (inr callerIdentity) qualsValueByColumn
           filterQuals qualsOwnerNumber "AMI" emptyWorld).
  by repeat split.
Defined.

(** X5 on the non-shared listing of [architecture = 'x86_64' and
    name = 'al2023'], with an empty cache and an identity that
    resolves. *)
Lemma buildAmisWithOwnerFilter_resolves_owner_once_witness :
  "AMI" <> "SHARED_AMI" /\
  qualsArchName !! "owner_id" = None /\
  (getCommonColumnsCached (inr callerIdentity) emptyWorld).1 = inr callerIdentity /\
  buildAmisWithOwnerFilter (inr callerIdentity) qualsValueByColumn
    filterQuals qualsArchName "AMI" emptyWorld
  = (Returns [{| types.Name := Some "architecture"; types.Values := ["x86_64"] |};
              {| types.Name := Some "name"; types.Values := ["al2023"] |};
              {| types.Name := Some "owner-id"; types.Values := ["111111111111"] |}],
     resolvedWorld) /\
  buildAmisWithOwnerFilter (inr callerIdentity) qualsValueByColumn
    filterQuals qualsArchName "AMI" resolvedWorld
  = (Returns [{| types.Name := Some "architecture"; types.Values := ["x86_64"] |};
              {| types.Name := Some "name"; types.Values := ["al2023"] |};
              {| types.Name := Some "owner-id"; types.Values := ["111111111111"] |}],
     resolvedWorld).
Proof.
  assert (H1 : "AMI" <> "SHARED_AMI") by discriminate.
  split; [exact H1|]. split; [reflexivity|]. split; [reflexivity|].
  destruct (buildAmisWithOwnerFilter_resolves_owner_once (inr callerIdentity)
              qualsValueByColumn filterQuals qualsArchName "AMI" emptyWorld
              callerIdentity H1 eq_refl eq_refl)
    as (w' & Hrun & _ & Hmiss & Hagain).
  assert (Hw : w' = resolvedWorld).
  { destruct (Hmiss eq_refl) as [Ht Hc]. destruct w' as [t c]. simpl in Ht, Hc.
    by subst. }
  subst w'. split; [exact Hrun|exact Hagain].
Defined.

(** X6 on a predicate on image_id added to [architecture = 'x86_64' and
    name = 'al2023']. *)
Lemma buildAmisWithOwnerFilter_ignores_other_columns_witness :
  filterQuals ≡ₚ filterQuals /\
  ("image_id" ∉ filterQuals.*1) /\
  "image_id" <> "owner_id" /\
  buildAmisWithOwnerFilter (inr callerIdentity) qualsValueByColumn
    filterQuals (<["image_id":=imageIdQual]> qualsArchName) "SHARED_AMI" emptyWorld
  = buildAmisWithOwnerFilter (inr callerIdentity) qualsValueByColumn
      filterQuals qualsArchName "SHARED_AMI" emptyWorld.
Proof.
  assert (H : "image_id" <> "owner_id") by discriminate.
  split; [reflexivity|]. split; [exact image_id_not_in_table|]. split; [exact H|].
  apply (buildAmisWithOwnerFilter_ignores_other_columns (inr callerIdentity)
           qualsValueByColumn filterQuals qualsArchName "image_id" imageIdQual
           "SHARED_AMI" emptyWorld (reflexivity _) image_id_not_in_table H).
  intros c' dataType Hne. by apply qualsValueByColumn_local.
Defined.

(** X7 on an image with neither alias nor owner id. *)
Lemma getImageOwnerAlias_panics_iff_witness :
  (getCommonColumnsCached (inr callerIdentity) emptyWorld).1 = inr callerIdentity /\
  (getImageOwnerAlias (inr callerIdentity) bareImage emptyWorld).1 = Panics.
Proof.
  split; [reflexivity|].
  apply (getImageOwnerAlias_panics_iff (inr callerIdentity) bareImage emptyWorld).
  split; [by exists callerIdentity|by split].
Defined.

(** X8 on an image of another account, asked about twice. *)
Lemma getImageOwnerAlias_again_witness :
  getImageOwnerAlias (inr callerIdentity) foreignImage emptyWorld
  = (Returns (VString "222222222222", None), resolvedWorld) /\
  getImageOwnerAlias (inr callerIdentity) foreignImage resolvedWorld
  = (Returns (VString "222222222222", None), resolvedWorld).
Proof.
  split; [reflexivity|].
  apply (getImageOwnerAlias_again (inr callerIdentity) foreignImage emptyWorld
           (VString "222222222222") resolvedWorld eq_refl).
Defined.

(** X10 on two queries with different predicates and the same host. *)
Lemma listAWSExplorerSupportedTypes_ignores_quals_witness :
  (forall n, plugin.RowsRemaining (queryOf ∅ ∅ (wants 10)) n
             = plugin.RowsRemaining (ownerQuery (wants 10)) n) /\
  listAWSExplorerSupportedTypes
    (inr (Some (servePages (inr <$> explorerPages)))) 4 (queryOf ∅ ∅ (wants 10)) emptyWorld
  = listAWSExplorerSupportedTypes
      (inr (Some (servePages (inr <$> explorerPages)))) 4 (ownerQuery (wants 10)) emptyWorld.
Proof.
  split; [reflexivity|].
  apply (listAWSExplorerSupportedTypes_ignores_quals (queryOf ∅ ∅ (wants 10))
           (inr (Some (servePages (inr <$> explorerPages)))) 4
           (ownerQuery (wants 10)) emptyWorld).
  reflexivity.
Defined.

(** X11 and X12 on a provider that serves two rows and then fails, with a
    host that wants no row. *)
Lemma listAWSExplorerSupportedTypes_exits_witness :
  [inr (resourceTypes 0 2); inl "Throttling"] <> [] /\
  exists x evs,
    listAWSExplorerSupportedTypes
      (inr (Some (servePages [inr (resourceTypes 0 2); inl "Throttling"])))
      5 (queryOf ∅ ∅ cancelled) emptyWorld
    = (x, logs evs emptyWorld).
Proof.
  assert (H : [@inr error _ (resourceTypes 0 2); inl "Throttling"] <> []) by discriminate.
  split; [exact H|].
  destruct (listAWSExplorerSupportedTypes_exits (queryOf ∅ ∅ cancelled)
              [inr (resourceTypes 0 2); inl "Throttling"] 5 emptyWorld H)
    as (x & evs & Hrun & _).
  by exists x, evs.
Defined.

Lemma listAWSExplorerSupportedTypes_returns_witness :
  [inr (resourceTypes 0 2); inl "Throttling"] <> [] /\
  length [@inr error _ (resourceTypes 0 2); inl "Throttling"] < 5 /\
  exists x evs result,
    listAWSExplorerSupportedTypes
      (inr (Some (servePages [inr (resourceTypes 0 2); inl "Throttling"])))
      5 (queryOf ∅ ∅ cancelled) emptyWorld
    = (x, logs evs emptyWorld) /\
    returned x = Some result.
Proof.
  assert (H : [@inr error _ (resourceTypes 0 2); inl "Throttling"] <> []) by discriminate.
  assert (Hf : length [@inr error _ (resourceTypes 0 2); inl "Throttling"] < 5)
    by (simpl; lia).
  split; [exact H|]. split; [exact Hf|].
  destruct (listAWSExplorerSupportedTypes_returns (queryOf ∅ ∅ cancelled)
              [inr (resourceTypes 0 2); inl "Throttling"] 5 emptyWorld H Hf)
    as (x & evs & result & Hrun & Hret & _).
  by exists x, evs, result.
Defined.

(** X13 on a provider that repeats the token "again". *)
Lemma listAWSExplorerSupportedTypes_repeated_token_witness :
  3 <= 3 /\ "again" <> "" /\
  fetches (trace
    (listAWSExplorerSupportedTypes
       (inr (Some (serveSame (resourceTypes 0 2) "again"))) 3
       (queryOf ∅ ∅ unlimited) emptyWorld).2) = 2.
Proof.
  assert (H : "again" <> "") by discriminate.
  split; [lia|]. split; [exact H|].
  destruct (listAWSExplorerSupportedTypes_repeated_token (queryOf ∅ ∅ unlimited)
              (resourceTypes 0 2) "again" 3 emptyWorld) as [Hrun _].
  - intros n _. apply unlimited_wants_more.
  - lia.
  - rewrite (Hrun H). reflexivity.
Defined.

(** X14 on a host that wants no row at all: one row is streamed. *)
Lemma listAWSExplorerSupportedTypes_stops_at_first_zero_witness :
  plugin.RowsRemaining (queryOf ∅ ∅ cancelled) 1 = 0%Z /\
  exists evs,
    listAWSExplorerSupportedTypes
      (inr (Some (servePages (inr <$> explorerPages)))) 3 (queryOf ∅ ∅ cancelled) emptyWorld
    = (StoppedEarly, logs evs emptyWorld) /\
    length (rows evs) = 1 /\ fetches evs = 1.
Proof.
  split; [reflexivity|].
  destruct (listAWSExplorerSupportedTypes_stops_at_first_zero (queryOf ∅ ∅ cancelled)
              explorerPages 3 emptyWorld 1)
    as (evs & Hrun & _ & Hrows & _ & Hfetches & _).
  - simpl. lia.
  - intros n Hn. simpl in Hn. lia.
  - reflexivity.
  - simpl. lia.
  - exists evs. split; [exact Hrun|]. split; [exact Hrows|exact Hfetches].
Defined.

(** X15 on three empty pages and a host that wants no row. *)
Lemma listers_empty_responses_witness :
  [[]; []; []] <> @nil (list types.SupportedResourceType) /\
  Forall (fun p : list types.SupportedResourceType => p = []) [[]; []; []] /\
  listAWSExplorerSupportedTypes
    (inr (Some (servePages (inr <$> [[]; []; []])))) 4 (queryOf ∅ ∅ cancelled) emptyWorld
  = (Done, logs (walked 0 [[]; []; []]) emptyWorld) /\
  fetches (walked 0 [[]; []; []]) = 3.
Proof.
  assert (H1 : [[]; []; []] <> @nil (list types.SupportedResourceType)) by discriminate.
  assert (H2 : Forall (fun p : list types.SupportedResourceType => p = []) [[]; []; []])
    by (by repeat constructor).
  split; [exact H1|]. split; [exact H2|].
  destruct (listers_empty_responses (inr callerIdentity) qualsValueByColumn filterQuals
              (queryOf ∅ ∅ cancelled) (serveImages []) {| ec2.Images := []; ec2.NextToken := None |}
              [[]; []; []] 4 emptyWorld) as [Hpaged _].
  destruct (Hpaged H1 H2) as (Hrun & _ & _ & Hf); [simpl; lia|].
  split; [exact Hrun|exact Hf].
Defined.

(** X16 on [owner_id = '111111111111' and public = true]. *)
Lemma listAmisByOwner_pushes_down_key_columns_witness :
  filterQuals ≡ₚ filterQuals /\
  {| table.Name := "public"; table.Require_ := table.Optional;
     table.Operators := ["="; "<>"] |} ∈ table.ListKeyColumns tableAwsEc2AmiShared /\
  is_Some (plugin.d_Quals (ownerQuery unlimited) !! "public") /\
  exists x input rest k before f after,
    listAmisByOwner (inr callerIdentity) qualsValueByColumn (inr (serveImages imagePages))
      filterQuals (ownerQuery unlimited) emptyWorld
    = (x, logs (EvDescribeImages input :: rest) emptyWorld) /\
    ("public", k) ∈ filterQuals /\
    ec2.Filters input = before ++ f :: after /\
    types.Name f = Some k /\
    types.Values f = ["true"].
Proof.
  assert (H1 : {| table.Name := "public"; table.Require_ := table.Optional;
                  table.Operators := ["="; "<>"] |}
               ∈ table.ListKeyColumns tableAwsEc2AmiShared)
    by (unfold tableAwsEc2AmiShared; cbn [table.ListKeyColumns];
        solve [repeat first [apply list_elem_of_here | apply list_elem_of_further]]).
  assert (H2 : is_Some (plugin.d_Quals (ownerQuery unlimited) !! "public"))
    by (by eexists).
  split; [reflexivity|]. split; [exact H1|]. split; [exact H2|].
  destruct (listAmisByOwner_pushes_down_key_columns (inr callerIdentity)
              qualsValueByColumn filterQuals (ownerQuery unlimited)
              (serveImages imagePages) emptyWorld _ (reflexivity _) H1 eq_refl H2)
    as (x & input & rest & k & before & f & after
        & Hrun & Hin & Hsplit & Hname & _ & Hbool & _).
  exists x, input, rest, k, before, f, after.
  split; [exact Hrun|]. split; [exact Hin|]. split; [exact Hsplit|].
  split; [exact Hname|]. apply Hbool. reflexivity.
Defined.
